(** * Airplane presentation viewer: a shallow embedding of the interactive logic

    The development follows [src/App.tsx] and [src/hooks/useFullscreen.ts].
    JavaScript numbers are modelled as exact rationals ([Q]); values that
    cross the persistence boundary are dynamically typed ([JSValue]), since
    [JSON.parse] returns whatever the stored text denotes.  Calls into the
    browser (JSON, localStorage) and into three.js are made through explicit
    interfaces, so that every statement holds for each behaviour of the
    platform.

    Part I holds the model, Part II the properties. *)

From Stdlib Require Import QArith Qminmax ZArith Bool Ascii String.
From stdpp Require Import gmap strings list.

Open Scope string_scope.

(** * Part I: the model *)

(** ** JavaScript values, truthiness and completions *)

Module Js.

(** The values [JSON.parse] can produce. *)
#[local] Unset Elimination Schemes.
Inductive JSValue : Type :=
| VNull
| VBool (b : bool)
| VNum (q : Q)
| VStr (s : string)
| VArr (items : list JSValue)
| VObj (fields : list (string * JSValue)).
#[local] Set Elimination Schemes.

Definition Qnonzero (q : Q) : bool := negb (Qnum q =? 0)%Z.

(** [ToBoolean]: [null], [false], [0] and the empty string are falsy. *)
Definition truthy (v : JSValue) : bool :=
  match v with
  | VNull => false
  | VBool b => b
  | VNum q => Qnonzero q
  | VStr s => negb (String.eqb s "")
  | VArr _ | VObj _ => true
  end.

(** [a && b] yields [a] when [a] is falsy and [b] otherwise. *)
Definition js_and (a b : JSValue) : JSValue := if truthy a then b else a.

(** A DOM reference as read from a property: an object, [null], or
    [undefined] when the property does not exist on this platform. *)
Inductive JSRef : Type :=
| Undefined
| Null
| Elem (node : nat).

Definition ref_truthy (r : JSRef) : bool :=
  match r with
  | Elem _ => true
  | Undefined | Null => false
  end.

(** [a || b] yields [a] when [a] is truthy and [b] otherwise. *)
Definition ref_or (a b : JSRef) : JSRef := if ref_truthy a then a else b.

(** [!!r] *)
Definition bangbang (r : JSRef) : bool := negb (negb (ref_truthy r)).

(** Errors raised by the platform. *)
Inductive JSError : Type :=
| SyntaxError
| QuotaExceededError
| SecurityError.

(** How a statement completes: normally, or by throwing. *)
Inductive completion (A : Type) : Type :=
| Normal (a : A)
| Thrown (e : JSError).
Arguments Normal {A} a.
Arguments Thrown {A} e.

(** Stateful, fallible code: the state reached is kept when an exception is
    thrown, as no side effect is undone by [throw]. *)
Definition M (S A : Type) : Type := S -> completion A * S.

Definition ret {S A} (a : A) : M S A := fun s => (Normal a, s).

Definition bind {S A B} (m : M S A) (k : A -> M S B) : M S B :=
  fun s =>
    match m s with
    | (Normal a, s') => k a s'
    | (Thrown e, s') => (Thrown e, s')
    end.

Definition throw {S A} (e : JSError) : M S A := fun s => (Thrown e, s).

(** [try { body } catch (error) { handler }] *)
Definition try_catch {S A} (body : M S A) (handler : JSError -> M S A) : M S A :=
  fun s =>
    match body s with
    | (Normal a, s') => (Normal a, s')
    | (Thrown e, s') => handler e s'
    end.

Definition get {S} : M S S := fun s => (Normal s, s).
Definition modify {S} (f : S -> S) : M S unit := fun s => (Normal tt, f s).

Definition completed {A} (c : completion A) : bool :=
  match c with
  | Normal _ => true
  | Thrown _ => false
  end.

End Js.

Import Js.

#[global] Instance M_ret {S} : MRet (M S) := fun A => @ret S A.
#[global] Instance M_bind {S} : MBind (M S) := fun A B k m => @bind S A B m k.

(** ** Hotspot registry ([pointsData]) *)

Module Registry.

Inductive Orientation : Type := horizontal | vertical.

Record PointData : Type := {
  id : Z;
  title : string;
  position : Q * Q * Q;
  description : list (string * string);
  image : string;
  alt : string;
  orientation : Orientation
}.

Definition descriptionLabels_size : string := "Dimensions".
Definition descriptionLabels_expedition : string := "Expedition".

(** Assets are imported URLs; they are named after their import.  The
    double quotes around Kamchatka in the source are written as single ones. *)
Definition pointsData : list PointData := [
  {| id := 1;
     title := "Radio receiver (PV-1 Ventura aircraft of Lieutenant Jack R. Cowles)";
     position := (0, 3.25, -4.4)%Q;
     image := "RadioReceiver";
     alt := "Radio receiver";
     orientation := horizontal;
     description := [
       (descriptionLabels_size, "24 x 10 x 5");
       (descriptionLabels_expedition, "'Kamchatka' Expedition, 2021–2023") ] |};
  {| id := 2;
     title := "Technical nameplate from the PV-1 Ventura flown by Lieutenant Jack R. Cowles";
     position := (0, 3.9, 1.7)%Q;
     image := "Nameplates";
     alt := "Technical nameplates";
     orientation := horizontal;
     description := [
       (descriptionLabels_size, "N/A");
       (descriptionLabels_expedition, "'Kamchatka' Expedition, 2021–2023") ] |};
  {| id := 3;
     title := "Technical cylinder (PV-1 Ventura aircraft of Lieutenant Jack R. Cowles)";
     position := (0.9, 2.6, 0.3)%Q;
     image := "Cylinder";
     alt := "Technical cylinder";
     orientation := horizontal;
     description := [
       (descriptionLabels_size, "45 х 15");
       (descriptionLabels_expedition, "ALSIB Expedition, September 2022") ] |}
].

End Registry.

Import Registry.

(** ** Overlay projector ([InteractivePoint]) *)

Module Overlay.

(** The marker group whose scale is rewritten each frame. *)
Record Group : Type := { scale : Q * Q * Q }.

(** [Math.min(1 / (distance * 0.2), 0.8) * size] *)
Definition scaleFactor (distance size : Q) : Q :=
  (Qmin (1 / (distance * 0.2)) 0.8 * size)%Q.

(** The [useFrame] callback.  [distance] is what
    [camera.position.distanceTo(new THREE.Vector3(...position))] returned;
    [pointRef] is [pointRef.current], absent until the group is mounted. *)
Definition useFrame (distance size : Q) (pointRef : option Group) : option Group :=
  match pointRef with
  | Some _ =>
      let scaleFactor := scaleFactor distance size in
      Some {| scale := (scaleFactor, scaleFactor, scaleFactor) |}
  | None => None
  end.

(** Initial scale of the group: [scale={[size, size, size]}]. *)
Definition mount (size : Q) : Group := {| scale := (size, size, size) |}.

(** The formula as the specification words it, with its constants named. *)
Definition spec_scale (K CAP distance userSizeMultiplier : Q) : Q :=
  (Qmin (1 / (distance * K)) CAP * userSizeMultiplier)%Q.

End Overlay.

(** ** Preference store ([useLocalStorage]) *)

Module PrefStore.

(** What the page can observe of the browser: the persisted entries and the
    console. *)
Record World : Type := {
  localStorage : gmap string string;
  console : list JSError
}.

(** The browser functions the hook calls.  [JSON_parse] yields [None] where
    [JSON.parse] throws a [SyntaxError]; the three [_throws] fields say when
    an access to the storage raises (quota exceeded, access denied) and
    with which error. *)
Record Browser : Type := {
  JSON_parse : string -> option JSValue;
  JSON_stringify : JSValue -> string;
  getItem_throws : gmap string string -> string -> option JSError;
  setItem_throws : gmap string string -> string -> string -> option JSError;
  removeItem_throws : gmap string string -> string -> option JSError
}.

(** The persisted entry of [key] cannot be read back: it is absent, or
    [JSON.parse] rejects its text. *)
Definition unreadable (B : Browser) (entries : gmap string string) (key : string) : Prop :=
  entries !! key = None
  \/ exists text, entries !! key = Some text /\ JSON_parse B text = None.

(** The argument of a setter: a plain value, or ([value instanceof Function])
    an updater applied to the stored value. *)
Inductive SetArg : Type :=
| Plain (value : JSValue)
| Updater (value : JSValue -> JSValue).

(** One [useState] cell ([None] before the first render) in its world. *)
Definition HookSt : Type := option JSValue * World.

Definition liftW {A} (m : M World A) : M HookSt A :=
  fun '(cell, w) => let '(c, w') := m w in (c, (cell, w')).

Section Hook.
Context (B : Browser).

(** [window.localStorage.getItem(key)] *)
Definition getItem (key : string) : M World (option string) :=
  fun w =>
    match getItem_throws B (localStorage w) key with
    | Some e => (Thrown e, w)
    | None => (Normal (localStorage w !! key), w)
    end.

(** [window.localStorage.setItem(key, value)] *)
Definition setItem (key value : string) : M World unit :=
  fun w =>
    match setItem_throws B (localStorage w) key value with
    | Some e => (Thrown e, w)
    | None => (Normal tt, {| localStorage := <[key := value]> (localStorage w);
                             console := console w |})
    end.

(** [localStorage.removeItem(key)] *)
Definition removeItem (key : string) : M World unit :=
  fun w =>
    match removeItem_throws B (localStorage w) key with
    | Some e => (Thrown e, w)
    | None => (Normal tt, {| localStorage := delete key (localStorage w);
                             console := console w |})
    end.

(** [console.log(error)] *)
Definition console_log (error : JSError) : M World unit :=
  modify (fun w => {| localStorage := localStorage w;
                      console := (console w ++ [error])%list |}).

(** [JSON.parse(item)] *)
Definition parse (item : string) : M World JSValue :=
  match JSON_parse B item with
  | Some v => mret v
  | None => throw SyntaxError
  end.

(** The lazy initializer handed to [useState]. *)
Definition initialState (key : string) (initialValue : JSValue) : M World JSValue :=
  try_catch
    (item ← getItem key;
     match item with
     | Some text => if negb (String.eqb text "") then parse text else mret initialValue
     | None => mret initialValue
     end)
    (fun error => console_log error ;; mret initialValue).

(** [useState(init)]: the initializer runs on the first render only. *)
Definition useState (init : M World JSValue) : M HookSt JSValue :=
  fun '(cell, w) =>
    match cell with
    | Some v => (Normal v, (cell, w))
    | None =>
        match init w with
        | (Normal v, w') => (Normal v, (Some v, w'))
        | (Thrown e, w') => (Thrown e, (None, w'))
        end
    end.

Definition setStoredValue (v : JSValue) : M HookSt unit :=
  modify (fun '(_, w) => (Some v, w)).

(** [setValue], closed over the [storedValue] of the render that made it. *)
Definition setValue (key : string) (storedValue : JSValue) (value : SetArg) : M HookSt unit :=
  try_catch
    (let valueToStore :=
       match value with
       | Updater f => f storedValue
       | Plain v => v
       end in
     setStoredValue valueToStore ;;
     liftW (setItem key (JSON_stringify B valueToStore)))
    (fun error => liftW (console_log error)).

(** One render of the hook: [[storedValue, setValue]]. *)
Definition useLocalStorage (key : string) (initialValue : JSValue)
  : M HookSt (JSValue * (SetArg -> M HookSt unit)) :=
  storedValue ← useState (initialState key initialValue);
  mret (storedValue, setValue key storedValue).

End Hook.

End PrefStore.

Import PrefStore.

(** ** The application component ([App]) *)

Module App.

(** The nine persisted settings, as the values of their state cells. *)
Record Prefs : Type := {
  isAutoRotating : JSValue;
  ambientIntensity : JSValue;
  directionalIntensity : JSValue;
  lightAngle : JSValue;
  showPoints : JSValue;
  pointSize : JSValue;
  rotationSpeed : JSValue;
  isPropellerSpinning : JSValue;
  propellerSpeed : JSValue
}.

Inductive Field : Type :=
| FIsAutoRotating
| FAmbientIntensity
| FDirectionalIntensity
| FLightAngle
| FShowPoints
| FPointSize
| FRotationSpeed
| FIsPropellerSpinning
| FPropellerSpeed.

Definition fields : list Field :=
  [FIsAutoRotating; FAmbientIntensity; FDirectionalIntensity; FLightAngle;
   FShowPoints; FPointSize; FRotationSpeed; FIsPropellerSpinning; FPropellerSpeed].

Definition get_field (f : Field) (p : Prefs) : JSValue :=
  match f with
  | FIsAutoRotating => isAutoRotating p
  | FAmbientIntensity => ambientIntensity p
  | FDirectionalIntensity => directionalIntensity p
  | FLightAngle => lightAngle p
  | FShowPoints => showPoints p
  | FPointSize => pointSize p
  | FRotationSpeed => rotationSpeed p
  | FIsPropellerSpinning => isPropellerSpinning p
  | FPropellerSpeed => propellerSpeed p
  end.

Definition set_field (f : Field) (v : JSValue) (p : Prefs) : Prefs :=
  let '(Build_Prefs a b c d e g h i j) := p in
  match f with
  | FIsAutoRotating => Build_Prefs v b c d e g h i j
  | FAmbientIntensity => Build_Prefs a v c d e g h i j
  | FDirectionalIntensity => Build_Prefs a b v d e g h i j
  | FLightAngle => Build_Prefs a b c v e g h i j
  | FShowPoints => Build_Prefs a b c d v g h i j
  | FPointSize => Build_Prefs a b c d e v h i j
  | FRotationSpeed => Build_Prefs a b c d e g v i j
  | FIsPropellerSpinning => Build_Prefs a b c d e g h v j
  | FPropellerSpeed => Build_Prefs a b c d e g h i v
  end.

(** The key and the initial value each [useLocalStorage] call is given. *)
Definition key (f : Field) : string :=
  match f with
  | FIsAutoRotating => "isAutoRotating"
  | FAmbientIntensity => "ambientIntensity"
  | FDirectionalIntensity => "directionalIntensity"
  | FLightAngle => "lightAngle"
  | FShowPoints => "showPoints"
  | FPointSize => "pointSize"
  | FRotationSpeed => "rotationSpeed"
  | FIsPropellerSpinning => "isPropellerSpinning"
  | FPropellerSpeed => "propellerSpeed"
  end.

Definition initialValue (f : Field) : JSValue :=
  match f with
  | FIsAutoRotating => VBool true
  | FAmbientIntensity => VNum 0
  | FDirectionalIntensity => VNum 2
  | FLightAngle => VNum 70
  | FShowPoints => VBool true
  | FPointSize => VNum 0.6
  | FRotationSpeed => VNum 0.3
  | FIsPropellerSpinning => VBool true
  | FPropellerSpeed => VNum 15
  end.

(** The mounted component: its setting cells, the selected hotspot
    ([activePoint], [null] when none) and the world it runs in. *)
Record State : Type := {
  prefs : Prefs;
  activePoint : option PointData;
  world : World
}.

(** The defaults of the nine settings, in the order of the record. *)
Definition documentedDefaults : Prefs := {|
  isAutoRotating := VBool true;
  ambientIntensity := VNum 0;
  directionalIntensity := VNum 2;
  lightAngle := VNum 70;
  showPoints := VBool true;
  pointSize := VNum 0.6;
  rotationSpeed := VNum 0.3;
  isPropellerSpinning := VBool true;
  propellerSpeed := VNum 15
|}.

(** The keys under which the nine settings are persisted. *)
Definition prefKeys : list string := map key fields.

Definition liftWorld {A} (m : M World A) : M State A :=
  fun st =>
    let '(c, w) := m (world st) in
    (c, {| prefs := prefs st; activePoint := activePoint st; world := w |}).

(** Code that leaves the settings and the selection as they are, however
    it completes. *)
Definition keeps_settings {A} (m : M State A) : Prop :=
  forall st, prefs (snd (m st)) = prefs st
             /\ activePoint (snd (m st)) = activePoint st.

(** The entries left once every key of [keys] has been removed. *)
Definition deletes (keys : list string) (entries : gmap string string) : gmap string string :=
  foldl (fun m k => delete k m) entries keys.

(** Run code of one hook on the cell of field [f]. *)
Definition zoom {A} (f : Field) (m : M HookSt A) : M State A :=
  fun st =>
    let '(c, (cell, w)) := m (Some (get_field f (prefs st)), world st) in
    (c, {| prefs := match cell with
                    | Some v => set_field f v (prefs st)
                    | None => prefs st
                    end;
           activePoint := activePoint st;
           world := w |}).

Section Component.
Context (B : Browser).

(** First render of one hook: its cell is empty. *)
Definition firstRender (key : string) (initialValue : JSValue) : M World JSValue :=
  fun w =>
    let '(c, (_, w')) := useLocalStorage B key initialValue (None, w) in
    (match c with
     | Normal (storedValue, _) => Normal storedValue
     | Thrown e => Thrown e
     end, w').

(** The hook calls that open the first render of [App], in the order of
    the source.  The render body that follows them in the same call is
    accounted for in [Session.firstCall]. *)
Definition mount : M World State :=
  isAutoRotating ← firstRender "isAutoRotating" (VBool true);
  ambientIntensity ← firstRender "ambientIntensity" (VNum 0);
  directionalIntensity ← firstRender "directionalIntensity" (VNum 2);
  lightAngle ← firstRender "lightAngle" (VNum 70);
  let activePoint := None in
  showPoints ← firstRender "showPoints" (VBool true);
  pointSize ← firstRender "pointSize" (VNum 0.6);
  rotationSpeed ← firstRender "rotationSpeed" (VNum 0.3);
  isPropellerSpinning ← firstRender "isPropellerSpinning" (VBool true);
  propellerSpeed ← firstRender "propellerSpeed" (VNum 15);
  w ← get;
  mret {| prefs := Build_Prefs isAutoRotating ambientIntensity directionalIntensity
                     lightAngle showPoints pointSize rotationSpeed
                     isPropellerSpinning propellerSpeed;
          activePoint := activePoint;
          world := w |}.

(** The setter of field [f] as the current render returns it. *)
Definition setter (f : Field) (value : SetArg) : M State unit :=
  zoom f ('(_, setValue) ← useLocalStorage B (key f) (initialValue f); setValue value).

Definition setIsAutoRotating := setter FIsAutoRotating.
Definition setAmbientIntensity := setter FAmbientIntensity.
Definition setDirectionalIntensity := setter FDirectionalIntensity.
Definition setLightAngle := setter FLightAngle.
Definition setShowPoints := setter FShowPoints.
Definition setPointSize := setter FPointSize.
Definition setRotationSpeed := setter FRotationSpeed.
Definition setIsPropellerSpinning := setter FIsPropellerSpinning.
Definition setPropellerSpeed := setter FPropellerSpeed.

Definition resetSettings : M State unit :=
  setIsAutoRotating (Plain (VBool true)) ;;
  setAmbientIntensity (Plain (VNum 0)) ;;
  setDirectionalIntensity (Plain (VNum 2)) ;;
  setLightAngle (Plain (VNum 70)) ;;
  setShowPoints (Plain (VBool true)) ;;
  setPointSize (Plain (VNum 0.6)) ;;
  setRotationSpeed (Plain (VNum 0.3)) ;;
  setIsPropellerSpinning (Plain (VBool true)) ;;
  setPropellerSpeed (Plain (VNum 15)) ;;
  liftWorld (removeItem B "isAutoRotating") ;;
  liftWorld (removeItem B "ambientIntensity") ;;
  liftWorld (removeItem B "directionalIntensity") ;;
  liftWorld (removeItem B "lightAngle") ;;
  liftWorld (removeItem B "showPoints") ;;
  liftWorld (removeItem B "pointSize") ;;
  liftWorld (removeItem B "rotationSpeed") ;;
  liftWorld (removeItem B "isPropellerSpinning") ;;
  liftWorld (removeItem B "propellerSpeed").

End Component.

(** [handlePointClick] *)
Definition handlePointClick (point : PointData) (st : State) : State :=
  {| prefs := prefs st; activePoint := Some point; world := world st |}.

(** [handleCloseInfoBox] *)
Definition handleCloseInfoBox (st : State) : State :=
  {| prefs := prefs st; activePoint := None; world := world st |}.

(** [!activePoint]: an object is truthy, [null] is not. *)
Definition not_activePoint (st : State) : bool :=
  match activePoint st with
  | Some _ => false
  | None => true
  end.

(** [isAutoRotating && !activePoint] *)
Definition actualIsRotating (st : State) : JSValue :=
  js_and (isAutoRotating (prefs st)) (VBool (not_activePoint st)).

(** Whether the frame callback of the model takes its rotation branch for
    the [isAutoRotating] property it is given. *)
Definition rotationEnabled (st : State) : bool := truthy (actualIsRotating st).

(** [<OrbitControls enabled={!activePoint} />] *)
Definition orbitControlsEnabled (st : State) : bool := not_activePoint st.

(** [{activePoint && <InfoBox point={activePoint} ... />}] *)
Definition renderedInfoBoxes (st : State) : list PointData :=
  match activePoint st with
  | Some point => [point]
  | None => []
  end.

(** The hotspots of the registry that are the selected one. *)
Definition activeHotspots (st : State) : list PointData :=
  match activePoint st with
  | Some point => filter (fun p => id p = id point) pointsData
  | None => []
  end.

(** The two user operations on the selection: a pointer-down on a marker
    (which calls [onClick(pointData)]) and closing the detail view. *)
Inductive Event : Type :=
| MarkerClick (point : PointData)
| CloseInfoBox.

Definition step (st : State) (ev : Event) : State :=
  match ev with
  | MarkerClick point => handlePointClick point st
  | CloseInfoBox => handleCloseInfoBox st
  end.

Definition run (evs : list Event) (st : State) : State := foldl step st evs.

End App.

(** ** Fullscreen observer ([useFullscreen]) *)

Module Fullscreen.

(** The document and its root element as the hook sees them: the four
    fullscreen-element accessors, and which of the request and exit methods
    exist ([true]) or are [undefined] ([false]). *)
Record Document : Type := {
  fullscreenElement : JSRef;
  mozFullScreenElement : JSRef;
  webkitFullscreenElement : JSRef;
  msFullscreenElement : JSRef;
  requestFullscreen : bool;
  mozRequestFullScreen : bool;
  webkitRequestFullscreen : bool;
  msRequestFullscreen : bool;
  exitFullscreen : bool;
  mozCancelFullScreen : bool;
  webkitExitFullscreen : bool;
  msExitFullscreen : bool
}.

(** The platform methods the toggle may invoke. *)
Inductive Call : Type :=
| call_requestFullscreen
| call_mozRequestFullScreen
| call_webkitRequestFullscreen
| call_msRequestFullscreen
| call_exitFullscreen
| call_mozCancelFullScreen
| call_webkitExitFullscreen
| call_msExitFullscreen.

Definition is_request (c : Call) : bool :=
  match c with
  | call_requestFullscreen | call_mozRequestFullScreen
  | call_webkitRequestFullscreen | call_msRequestFullscreen => true
  | _ => false
  end.

(** The hook: its [isFullscreen] cell, and the calls made so far. *)
Record Hook : Type := {
  isFullscreen : bool;
  calls : list Call
}.

(** The initializer of the [isFullscreen] cell. *)
Definition initialIsFullscreen (doc : Document) : bool :=
  bangbang
    (ref_or (ref_or (ref_or (fullscreenElement doc)
                            (mozFullScreenElement doc))
                    (webkitFullscreenElement doc))
            (msFullscreenElement doc)).

Definition useFullscreen_mount (doc : Document) : Hook :=
  {| isFullscreen := initialIsFullscreen doc; calls := [] |}.

Definition invoke (c : Call) : M Hook unit :=
  modify (fun h => {| isFullscreen := isFullscreen h; calls := (calls h ++ [c])%list |}).

(** [toggleFullscreen] *)
Definition toggleFullscreen (doc : Document) : M Hook unit :=
  let isCurrentlyFullscreen :=
    bangbang
      (ref_or (ref_or (ref_or (fullscreenElement doc)
                              (mozFullScreenElement doc))
                      (webkitFullscreenElement doc))
              (msFullscreenElement doc)) in
  if negb isCurrentlyFullscreen then
    if requestFullscreen doc then invoke call_requestFullscreen
    else if mozRequestFullScreen doc then invoke call_mozRequestFullScreen
    else if webkitRequestFullscreen doc then invoke call_webkitRequestFullscreen
    else if msRequestFullscreen doc then invoke call_msRequestFullscreen
    else mret tt
  else
    if exitFullscreen doc then invoke call_exitFullscreen
    else if mozCancelFullScreen doc then invoke call_mozCancelFullScreen
    else if webkitExitFullscreen doc then invoke call_webkitExitFullscreen
    else if msExitFullscreen doc then invoke call_msExitFullscreen
    else mret tt.

(** [handleFullscreenChange] *)
Definition handleFullscreenChange (doc : Document) : M Hook unit :=
  let isCurrentlyFullscreen :=
    bangbang
      (ref_or (ref_or (ref_or (fullscreenElement doc)
                              (mozFullScreenElement doc))
                      (webkitFullscreenElement doc))
              (msFullscreenElement doc)) in
  modify (fun h => {| isFullscreen := isCurrentlyFullscreen; calls := calls h |}).

(** The value the change handler stores. *)
Definition handlerProbe (doc : Document) : bool :=
  isFullscreen (snd (handleFullscreenChange doc {| isFullscreen := false; calls := [] |})).

(** The accessor whose value decides a probe: the first non-empty one in
    the order unprefixed, moz, webkit, ms. *)
Definition firstNonEmpty (doc : Document) : JSRef :=
  match fullscreenElement doc with
  | Elem n => Elem n
  | _ =>
      match mozFullScreenElement doc with
      | Elem n => Elem n
      | _ =>
          match webkitFullscreenElement doc with
          | Elem n => Elem n
          | _ => msFullscreenElement doc
          end
      end
  end.

(** The method [toggleFullscreen] calls on [doc], if any, written as a
    function of the probe [fullscreen] alone. *)
Definition chosenCalls (doc : Document) (fullscreen : bool) : list Call :=
  if fullscreen then
    if exitFullscreen doc then [call_exitFullscreen]
    else if mozCancelFullScreen doc then [call_mozCancelFullScreen]
    else if webkitExitFullscreen doc then [call_webkitExitFullscreen]
    else if msExitFullscreen doc then [call_msExitFullscreen]
    else []
  else
    if requestFullscreen doc then [call_requestFullscreen]
    else if mozRequestFullScreen doc then [call_mozRequestFullScreen]
    else if webkitRequestFullscreen doc then [call_webkitRequestFullscreen]
    else if msRequestFullscreen doc then [call_msRequestFullscreen]
    else [].

(** A platform exposes none of the four method families. *)
Definition noFullscreenMethods (doc : Document) : Prop :=
  requestFullscreen doc = false /\ exitFullscreen doc = false /\
  mozRequestFullScreen doc = false /\ mozCancelFullScreen doc = false /\
  webkitRequestFullscreen doc = false /\ webkitExitFullscreen doc = false /\
  msRequestFullscreen doc = false /\ msExitFullscreen doc = false.

End Fullscreen.

(** ** Animation drivers ([Airplane]) *)

Module Airplane.

(** A node of the loaded model; only its name and its roll angle
    ([rotation.z]) are read or written by the component. *)
Record Object3D : Type := {
  name : string;
  rotation_z : Q
}.

(** The node graph of the model, as the sequence of its nodes in the order
    [getObjectByName] visits them (depth first, a node before its
    children).  A node is referred to by its place in that sequence. *)
Abbreviation Scene := (list Object3D).

(** [scene.getObjectByName(name)]: the first node so named, if any. *)
Fixpoint getObjectByName (scene : Scene) (wanted : string) : option nat :=
  match scene with
  | [] => None
  | node :: rest =>
      if String.eqb (name node) wanted then Some 0%nat
      else S <$> getObjectByName rest wanted
  end.

Definition bladeNames : list string := ["Prop_Blade"; "Prop_"].

(** The effect run once the model is loaded: [foundBlades]. *)
Definition findBlades (scene : Scene) : list nat :=
  foldl (fun (foundBlades : list nat) name =>
           match getObjectByName scene name with
           | Some part => (foundBlades ++ [part])%list
           | None => foundBlades
           end)
        [] bladeNames.

(** The properties the frame callback reads. *)
Record Props : Type := {
  isAutoRotating : bool;
  rotationSpeed : Q;
  isPropellerSpinning : bool;
  propellerSpeed : Q
}.

(** What a frame can change: the yaw of the model group ([modelRef.current],
    absent until mounted) and the nodes of the scene. *)
Record Frame : Type := {
  modelRef : option Q;
  scene : Scene
}.

(** [blade.rotation.z += delta * propellerSpeed] *)
Definition spin (delta propellerSpeed : Q) (blade : Object3D) : Object3D :=
  {| name := name blade;
     rotation_z := (rotation_z blade + delta * propellerSpeed)%Q |}.

(** The [useFrame] callback. *)
Definition useFrame (props : Props) (blades : list nat) (delta : Q) (fr : Frame) : Frame :=
  let modelRef' :=
    match modelRef fr with
    | Some rotation_y =>
        if isAutoRotating props
        then Some (rotation_y + delta * rotationSpeed props)%Q
        else Some rotation_y
    | None => None
    end in
  let scene' :=
    if isPropellerSpinning props then
      if (0 <? length blades)%nat then
        foldl (fun objects blade => alter (spin delta (propellerSpeed props)) blade objects)
              (scene fr) blades
      else scene fr
    else scene fr in
  {| modelRef := modelRef'; scene := scene' |}.

(** The group is mounted with [rotation={[0, 3, 0]}]. *)
Definition mountFrame (model : Scene) : Frame := {| modelRef := Some 3%Q; scene := model |}.

End Airplane.

(** ** A reference browser

    A concrete platform to run the model on: JSON restricted to the scalar
    literals the settings are stored as ([true], [false], [null] and
    decimal numbers), and a storage that never raises unless told to. *)

Module Reference.

Definition digit_of_ascii (c : ascii) : option Z :=
  let n := Z.of_nat (nat_of_ascii c) in
  if ((48 <=? n) && (n <=? 57))%Z then Some (n - 48)%Z else None.

Definition ascii_of_digit (d : Z) : ascii := ascii_of_nat (Z.to_nat (48 + d)).

(** Reads a run of digits, most significant first. *)
Fixpoint read_digits (s : string) (acc : Z) : option Z :=
  match s with
  | EmptyString => Some acc
  | String c rest =>
      match digit_of_ascii c with
      | Some d => read_digits rest (acc * 10 + d)%Z
      | None => None
      end
  end.

(** Splits at the first dot. *)
Fixpoint split_dot (s : string) : string * option string :=
  match s with
  | EmptyString => (EmptyString, None)
  | String c rest =>
      if Ascii.eqb c "."%char then (EmptyString, Some rest)
      else let '(whole, frac) := split_dot rest in (String c whole, frac)
  end.

Definition parse_unsigned (s : string) : option Q :=
  let '(whole, frac) := split_dot s in
  match whole, frac with
  | EmptyString, _ => None
  | String "0" (String _ _), _ => None
  | _, Some EmptyString => None
  | _, None => (fun n => inject_Z n) <$> read_digits whole 0
  | _, Some digits =>
      n ← read_digits (whole +:+ digits) 0;
      Some (Qmake n (Pos.pow 10 (Pos.of_nat (String.length digits))))
  end.

Definition JSON_parse (s : string) : option JSValue :=
  if String.eqb s "true" then Some (VBool true)
  else if String.eqb s "false" then Some (VBool false)
  else if String.eqb s "null" then Some VNull
  else match s with
       | String "-" rest => (fun q => VNum (- q)) <$> parse_unsigned rest
       | _ => VNum <$> parse_unsigned s
       end.

Fixpoint print_digits (fuel : nat) (n : Z) (acc : string) : string :=
  match fuel with
  | O => acc
  | S fuel' =>
      let acc' := String (ascii_of_digit (n mod 10)) acc in
      if (n / 10 =? 0)%Z then acc' else print_digits fuel' (n / 10) acc'
  end.

Definition print_nat (n : Z) : string :=
  print_digits (S (Z.to_nat (Z.log2 n))) n EmptyString.

(** The digits after the dot of [r / d] for [0 <= r < d], at most [fuel]. *)
Fixpoint print_fraction (fuel : nat) (r d : Z) : string :=
  match fuel with
  | O => EmptyString
  | S fuel' =>
      if (r =? 0)%Z then EmptyString
      else String (ascii_of_digit (r * 10 / d)) (print_fraction fuel' (r * 10 mod d) d)
  end.

Definition print_unsigned (q : Q) : string :=
  let n := Qnum q in
  let d := Z.pos (Qden q) in
  let whole := print_nat (n / d) in
  match print_fraction 17 (n mod d) d with
  | EmptyString => whole
  | digits => whole +:+ "." +:+ digits
  end.

Definition JSON_stringify (v : JSValue) : string :=
  match v with
  | VBool true => "true"
  | VBool false => "false"
  | VNum q =>
      if (Qnum q <? 0)%Z then "-" +:+ print_unsigned (- q) else print_unsigned q
  | _ => "null"
  end.

(** A browser whose storage never raises. *)
Definition browser : Browser := {|
  PrefStore.JSON_parse := JSON_parse;
  PrefStore.JSON_stringify := JSON_stringify;
  getItem_throws := fun _ _ => None;
  setItem_throws := fun _ _ _ => None;
  removeItem_throws := fun _ _ => None
|}.

(** The same browser, except that removing the entry [failing] raises. *)
Definition browser_removal_fails (failing : string) : Browser := {|
  PrefStore.JSON_parse := JSON_parse;
  PrefStore.JSON_stringify := JSON_stringify;
  getItem_throws := fun _ _ => None;
  setItem_throws := fun _ _ _ => None;
  removeItem_throws := fun _ key => if String.eqb key failing then Some SecurityError else None
|}.

(** A browser in which every access to the storage is denied. *)
Definition browser_storage_denied : Browser := {|
  PrefStore.JSON_parse := JSON_parse;
  PrefStore.JSON_stringify := JSON_stringify;
  getItem_throws := fun _ _ => Some SecurityError;
  setItem_throws := fun _ _ _ => Some SecurityError;
  removeItem_throws := fun _ _ => Some SecurityError
|}.

Definition emptyWorld : World := {| localStorage := ∅; console := [] |}.

End Reference.


(** ** DOM events: listener lists and bubbling *)

Module Dom.

(** A registered listener: the event type and the identity of the callback. *)
Definition Listener : Type := string * nat.

(** [target.addEventListener(type, callback)]: a listener already in the
    list is not added again. *)
Definition addEventListener (type : string) (callback : nat) (ls : list Listener)
  : list Listener :=
  if bool_decide ((type, callback) ∈ ls) then ls else (ls ++ [(type, callback)])%list.

(** [target.removeEventListener(type, callback)] *)
Definition removeEventListener (type : string) (callback : nat) (ls : list Listener)
  : list Listener :=
  filter (fun l => l ≠ (type, callback)) ls.

(** A handler on the propagation path: the state it leaves, and whether it
    called [e.stopPropagation()]. *)
Definition Handler (S : Type) : Type := S -> S * bool.

(** Bubbling: the handlers from the target outwards, until one stops the
    propagation. *)
Fixpoint bubble {S} (path : list (Handler S)) (s : S) : S :=
  match path with
  | [] => s
  | h :: outer =>
      let '(s', stopped) := h s in
      if stopped then s' else bubble outer s'
  end.

End Dom.

(** ** The settings panel of [App]: opening, closing on an outside press *)

Module Panel.

(** [buttonRef.current] and [panelRef.current]: a mounted node or [null]. *)
Record Refs : Type := {
  buttonRef : option nat;
  panelRef : option nat
}.

(** [node.contains(event.target)], the target being given by the chain of
    its inclusive ancestors. *)
Definition contains (node : nat) (target : list nat) : bool :=
  bool_decide (node ∈ target).

(** [handleClickOutside]: the value of [isPanelOpen] it leaves. *)
Definition handleClickOutside (refs : Refs) (target : list nat) (isPanelOpen : bool) : bool :=
  let afterButtonCheck :=
    match panelRef refs with
    | Some panel => if negb (contains panel target) then false else isPanelOpen
    | None => isPanelOpen
    end in
  match buttonRef refs with
  | Some button => if contains button target then isPanelOpen else afterButtonCheck
  | None => afterButtonCheck
  end.

(** The effect on [isPanelOpen], with [callback] the identity of the
    [handleClickOutside] closure this run created. *)
Definition effect (isPanelOpen : bool) (callback : nat) (ls : list Dom.Listener)
  : list Dom.Listener :=
  if isPanelOpen then Dom.addEventListener "mousedown" callback ls else ls.

(** The cleanup the effect returns. *)
Definition cleanup (callback : nat) (ls : list Dom.Listener) : list Dom.Listener :=
  Dom.removeEventListener "mousedown" callback ls.

(** A [mousedown] reaching the document: each listener of that type
    registered by the component runs [handleClickOutside]. *)
Definition documentMouseDown (refs : Refs) (ls : list Dom.Listener) (target : list nat)
    (isPanelOpen : bool) : bool :=
  foldl (fun open l =>
           if String.eqb (fst l) "mousedown"
           then handleClickOutside refs target open
           else open)
        isPanelOpen ls.

(** [onClick={() => setIsPanelOpen(!isPanelOpen)}] of the burger button. *)
Definition burger_onClick (isPanelOpen : bool) : bool := negb isPanelOpen.

(** A full press on the burger button: the [mousedown] is seen by the
    document, then the click by the button. *)
Definition pressBurger (refs : Refs) (ls : list Dom.Listener) (target : list nat)
    (isPanelOpen : bool) : bool :=
  burger_onClick (documentMouseDown refs ls target isPanelOpen).

End Panel.

(** ** The detail view ([InfoBox]) and the marker ([InteractivePoint]): clicks *)

Module InfoBox.

(** Where a click lands: on the backdrop itself, inside the card, or on
    the close button (which is inside the card). *)
Inductive Target : Type := Backdrop | Content | CloseButton.

Section Clicks.
Context {S : Type} (onClose : S -> S).

(** [<div className={s.infoBoxBackdrop} onClick={onClose}>] *)
Definition backdrop_onClick : Dom.Handler S := fun s => (onClose s, false).

(** [onClick={(e) => e.stopPropagation()}] of the card *)
Definition content_onClick : Dom.Handler S := fun s => (s, true).

(** [<button ... onClick={onClose}>] *)
Definition closeButton_onClick : Dom.Handler S := fun s => (onClose s, false).

Definition path (t : Target) : list (Dom.Handler S) :=
  match t with
  | Backdrop => [backdrop_onClick]
  | Content => [content_onClick; backdrop_onClick]
  | CloseButton => [closeButton_onClick; content_onClick; backdrop_onClick]
  end.

Definition click (t : Target) (s : S) : S := Dom.bubble (path t) s.

End Clicks.

End InfoBox.

Module InteractivePoint.

Section Press.
Context {S : Type} (onClick : PointData -> S -> S).

(** [handleClick]: [e.stopPropagation(); onClick(pointData)] *)
Definition handleClick (pointData : PointData) : Dom.Handler S :=
  fun s => (onClick pointData s, true).

(** A pointer-down on the marker, [outer] being the handlers of the nodes
    around it. *)
Definition pointerDown (pointData : PointData) (outer : list (Dom.Handler S)) (s : S) : S :=
  Dom.bubble (handleClick pointData :: outer) s.

End Press.

End InteractivePoint.

(** ** The loading indicator ([LoadingAnimation]) *)

Module LoadingAnimation.

(** The updater run every second: [prevDots < 3 ? prevDots + 1 : 1]. *)
Definition nextDots (prevDots : Z) : Z :=
  if (prevDots <? 3)%Z then (prevDots + 1)%Z else 1%Z.

(** [dots] after [n] ticks of the interval, from [useState(1)]. *)
Definition dotsAfter (n : nat) : Z := Nat.iter n nextDots 1%Z.

(** ['.'.repeat(dots)] *)
Fixpoint repeat_dot (count : nat) : string :=
  match count with
  | O => EmptyString
  | S count' => String "."%char (repeat_dot count')
  end.

(** The text rendered: [{title}{'.'.repeat(dots)}]. *)
Definition render (title : string) (dots : Z) : string :=
  title +:+ repeat_dot (Z.to_nat dots).

End LoadingAnimation.

(** ** Sessions: what a hook loads, and the handlers of the settings panel *)

Module Session.

(** The value the first render of a hook yields, as a function of the
    persisted entries alone. *)
Definition loaded (B : Browser) (entries : gmap string string) (key : string)
    (initialValue : JSValue) : JSValue :=
  match getItem_throws B entries key with
  | Some _ => initialValue
  | None =>
      match entries !! key with
      | Some text =>
          if negb (String.eqb text "") then
            match JSON_parse B text with
            | Some v => v
            | None => initialValue
            end
          else initialValue
      | None => initialValue
      end
  end.

(** The settings a mount yields from [entries]. *)
Definition loadedPrefs (B : Browser) (entries : gmap string string) : App.Prefs := {|
  App.isAutoRotating := loaded B entries "isAutoRotating" (VBool true);
  App.ambientIntensity := loaded B entries "ambientIntensity" (VNum 0);
  App.directionalIntensity := loaded B entries "directionalIntensity" (VNum 2);
  App.lightAngle := loaded B entries "lightAngle" (VNum 70);
  App.showPoints := loaded B entries "showPoints" (VBool true);
  App.pointSize := loaded B entries "pointSize" (VNum 0.6);
  App.rotationSpeed := loaded B entries "rotationSpeed" (VNum 0.3);
  App.isPropellerSpinning := loaded B entries "isPropellerSpinning" (VBool true);
  App.propellerSpeed := loaded B entries "propellerSpeed" (VNum 15)
|}.


Section Handlers.
Context (B : Browser).

(** [onChange={() => setIsAutoRotating(!isAutoRotating)}] *)
Definition onChange_autoRotate : M App.State unit :=
  fun st =>
    App.setIsAutoRotating B
      (Plain (VBool (negb (truthy (App.isAutoRotating (App.prefs st)))))) st.

(** [onChange={() => setIsPropellerSpinning(!isPropellerSpinning)}] *)
Definition onChange_propellerSpin : M App.State unit :=
  fun st =>
    App.setIsPropellerSpinning B
      (Plain (VBool (negb (truthy (App.isPropellerSpinning (App.prefs st)))))) st.

(** [onChange={() => setShowPoints(!showPoints)}] *)
Definition onChange_showPoints : M App.State unit :=
  fun st =>
    App.setShowPoints B
      (Plain (VBool (negb (truthy (App.showPoints (App.prefs st)))))) st.

End Handlers.

(** [value.toFixed(digits)] on a value read from a cell: only a number has
    the method; on anything else the call raises a [TypeError] ([None]).
    [toFixed] is the formatting of the platform. *)
Definition toFixed_call (toFixed : Q -> nat -> string) (value : JSValue) (digits : nat)
  : option string :=
  match value with
  | VNum q => Some (toFixed q digits)
  | _ => None
  end.

(** The value labels of the panel that format a setting with [toFixed], in
    the order the render evaluates them. *)
Definition valueLabels (toFixed : Q -> nat -> string) (p : App.Prefs) : option (list string) :=
  rotation ← toFixed_call toFixed (App.rotationSpeed p) 1;
  propeller ← toFixed_call toFixed (App.propellerSpeed p) 0;
  ambient ← toFixed_call toFixed (App.ambientIntensity p) 1;
  directional ← toFixed_call toFixed (App.directionalIntensity p) 1;
  size ← toFixed_call toFixed (App.pointSize p) 1;
  Some [ "Скорость вращения: " +:+ rotation;
         "Скорость винтов: " +:+ propeller;
         "Яркость (Общий): " +:+ ambient;
         "Яркость (Основной): " +:+ directional;
         "Размер подсказок: " +:+ size ].

(** The fields formatted with [toFixed]. *)
Definition numericFields : list App.Field :=
  [App.FRotationSpeed; App.FPropellerSpeed; App.FAmbientIntensity;
   App.FDirectionalIntensity; App.FPointSize].

Definition is_number (v : JSValue) : bool :=
  match v with
  | VNum _ => true
  | _ => false
  end.

(** How the first call of [App] ends: it returns, with its cells filled and
    the value labels built; or one of its hooks throws; or a [toFixed] call
    on a value that is not a number raises a [TypeError]. *)
Inductive FirstCall : Type :=
| Returned (st : App.State) (labels : list string)
| HookThrew (e : JSError)
| ThrewTypeError.

(** The first call of [App]: the nine hooks, then the render body, whose
    [toFixed] calls are what can raise in it. *)
Definition firstCall (B : Browser) (toFixed : Q -> nat -> string) (w : World)
  : FirstCall * World :=
  match App.mount B w with
  | (Normal st, w') =>
      match valueLabels toFixed (App.prefs st) with
      | Some labels => (Returned st labels, w')
      | None => (ThrewTypeError, w')
      end
  | (Thrown e, w') => (HookThrew e, w')
  end.

End Session.

(** ** Fullscreen observer: subscriptions and notifications *)

Module FullscreenEvents.

Import Fullscreen.

(** The effect of the hook, with [callback] the identity of the
    [handleFullscreenChange] closure this run created. *)
Definition effect (callback : nat) (ls : list Dom.Listener) : list Dom.Listener :=
  Dom.addEventListener "MSFullscreenChange" callback
    (Dom.addEventListener "mozfullscreenchange" callback
       (Dom.addEventListener "webkitfullscreenchange" callback
          (Dom.addEventListener "fullscreenchange" callback ls))).

(** The cleanup the effect returns. *)
Definition cleanup (callback : nat) (ls : list Dom.Listener) : list Dom.Listener :=
  Dom.removeEventListener "MSFullscreenChange" callback
    (Dom.removeEventListener "mozfullscreenchange" callback
       (Dom.removeEventListener "webkitfullscreenchange" callback
          (Dom.removeEventListener "fullscreenchange" callback ls))).

Definition changeEvents : list string :=
  ["fullscreenchange"; "webkitfullscreenchange"; "mozfullscreenchange"; "MSFullscreenChange"].

(** An event of [type] dispatched on the document in state [doc]: the
    closure runs if it is registered for that type. *)
Definition dispatch (type : string) (callback : nat) (ls : list Dom.Listener)
    (doc : Document) : M Hook unit :=
  if bool_decide ((type, callback) ∈ ls) then handleFullscreenChange doc else mret tt.

(** What happens to a mounted hook: the button calls the toggle, or the
    platform dispatches an event; each comes with the state of the document
    at that moment. *)
Inductive Ev : Type :=
| Toggle (doc : Document)
| Notify (type : string) (doc : Document).

Definition step (callback : nat) (ls : list Dom.Listener) (h : Hook) (ev : Ev) : Hook :=
  match ev with
  | Toggle doc => snd (toggleFullscreen doc h)
  | Notify type doc => snd (dispatch type callback ls doc h)
  end.

Definition run (callback : nat) (ls : list Dom.Listener) (evs : list Ev) (h : Hook) : Hook :=
  foldl (step callback ls) h evs.

(** The document state of the last change notification among [evs], or
    [doc0] when there was none. *)
Definition lastNotified (evs : list Ev) (doc0 : Document) : Document :=
  foldl (fun doc ev =>
           match ev with
           | Notify type doc' => if bool_decide (type ∈ changeEvents) then doc' else doc
           | Toggle _ => doc
           end)
        doc0 evs.

End FullscreenEvents.

(** ** Animation over several frames *)

Module Animation.

Import Airplane.

(** The frame callback run once per frame, with the elapsed times [deltas]. *)
Definition frames (props : Props) (blades : list nat) (deltas : list Q) (fr : Frame) : Frame :=
  foldl (fun fr delta => useFrame props blades delta fr) fr deltas.

(** The yaw of the model group, and the roll of the node at place [i]. *)
Definition yaw (fr : Frame) : Q := default 0%Q (modelRef fr).

Definition roll (objects : Scene) (i : nat) : Q :=
  from_option rotation_z 0%Q (objects !! i).

End Animation.

(** * Part II: properties *)

(** ** Overlay projector *)

Section OverlayFacts.
Local Open Scope Q_scope.

Lemma sensitivity_pos (d : Q) : 0 < d -> 0 < d * 0.2.
Proof.
  intros Hd. apply Qmult_lt_0_compat; [exact Hd | reflexivity].
Qed.

(** The distance term [1 / (d * 0.2)] is positive for a positive distance. *)
Lemma distance_term_pos (d : Q) : 0 < d -> 0 < 1 / (d * 0.2).
Proof.
  intros Hd. unfold Qdiv. rewrite Qmult_1_l.
  apply Qinv_lt_0_compat, sensitivity_pos, Hd.
Qed.

(** The distance term shrinks as the distance grows. *)
Lemma distance_term_antitone (d d' : Q) :
  0 < d -> d <= d' -> 1 / (d' * 0.2) <= 1 / (d * 0.2).
Proof.
  intros Hd Hle.
  assert (Hd' : 0 < d') by (eapply Qlt_le_trans; eassumption).
  pose proof (sensitivity_pos d Hd) as Hk.
  pose proof (sensitivity_pos d' Hd') as Hk'.
  apply Qle_shift_div_l; [exact Hk |].
  setoid_replace (1 / (d' * 0.2) * (d * 0.2)) with ((d * 0.2) / (d' * 0.2)) using relation Qeq
    by (unfold Qdiv; ring).
  apply Qle_shift_div_r; [exact Hk' |].
  rewrite Qmult_1_l. apply Qmult_le_compat_r; [exact Hle | discriminate].
Qed.

Lemma capped_term_pos (d : Q) : 0 < d -> 0 <= Qmin (1 / (d * 0.2)) 0.8.
Proof.
  intros Hd. apply Q.min_glb; [| discriminate].
  apply Qlt_le_weak, distance_term_pos, Hd.
Qed.

(** Up to the distance 6.25 the cap decides the scale. *)
Lemma scaleFactor_near (d s : Q) :
  0 < d -> d <= 6.25 -> Overlay.scaleFactor d s == 0.8 * s.
Proof.
  intros Hd Hle. unfold Overlay.scaleFactor.
  rewrite Q.min_r; [reflexivity |].
  apply Qle_shift_div_l; [apply sensitivity_pos, Hd |].
  setoid_replace (0.8 * (d * 0.2)) with (d * 0.16) using relation Qeq by ring.
  setoid_replace 1 with (6.25 * 0.16) using relation Qeq by reflexivity.
  apply Qmult_le_compat_r; [exact Hle | discriminate].
Qed.

(** C1.  For every distance [d > 0] and every size preference [s], the scale
    the frame callback computes, and writes to the three axes of the marker,
    is [min(1/(d*0.2), 0.8) * s]; for [s >= 0] it is non-negative, and it
    does not grow when the distance grows from [d] to any [d']. *)
Theorem marker_scale_formula_nonneg_antitone (d s : Q) :
  0 < d ->
  Overlay.scaleFactor d s = Overlay.spec_scale 0.2 0.8 d s
  /\ (forall g : Overlay.Group,
        Overlay.useFrame d s (Some g)
        = Some {| Overlay.scale := (Overlay.spec_scale 0.2 0.8 d s,
                                    Overlay.spec_scale 0.2 0.8 d s,
                                    Overlay.spec_scale 0.2 0.8 d s) |})
  /\ (0 <= s -> 0 <= Overlay.scaleFactor d s)
  /\ (0 <= s -> forall d' : Q, d <= d' ->
        Overlay.scaleFactor d' s <= Overlay.scaleFactor d s).
Proof.
  intros Hd. split; [reflexivity |]. split; [intros g; reflexivity |]. split.
  - intros Hs. unfold Overlay.scaleFactor.
    apply Qmult_le_0_compat; [apply capped_term_pos, Hd | exact Hs].
  - intros Hs d' Hle. unfold Overlay.scaleFactor.
    apply Qmult_le_compat_r; [| exact Hs].
    apply Q.min_le_compat_r, distance_term_antitone; assumption.
Qed.

Lemma marker_scale_formula_nonneg_antitone_witness :
  0 < 10
  /\ Overlay.scaleFactor 10 0.6 = Overlay.spec_scale 0.2 0.8 10 0.6
  /\ 0 <= Overlay.scaleFactor 10 0.6
  /\ Overlay.scaleFactor 20 0.6 <= Overlay.scaleFactor 10 0.6.
Proof.
  assert (Hd : 0 < 10) by reflexivity.
  assert (Hs : 0 <= 0.6) by (unfold Qle; simpl; lia).
  assert (Hle : 10 <= 20) by (unfold Qle; simpl; lia).
  split; [exact Hd |].
  destruct (marker_scale_formula_nonneg_antitone 10 0.6 Hd) as (Heq & _ & Hpos & Hmono).
  split; [exact Heq |]. split; [exact (Hpos Hs) | exact (Hmono Hs 20 Hle)].
Defined.

End OverlayFacts.

(** ** Selection and rotation gating *)

Section SelectionFacts.

(** The identifiers of the registry are pairwise distinct. *)
Lemma pointsData_ids_unique : NoDup (map id pointsData).
Proof.
  unfold pointsData; simpl.
  repeat (apply NoDup_cons; split; [rewrite ?elem_of_cons, elem_of_nil; intuition lia |]).
  apply NoDup_nil_2.
Qed.

Lemma at_most_one_hotspot_per_id (z : Z) :
  (length (filter (fun p => id p = z) pointsData) <= 1)%nat.
Proof.
  unfold pointsData. rewrite !filter_cons, filter_nil.
  repeat case_decide; simpl in *; lia.
Qed.

(** Neither operation touches the settings or the world. *)
Lemma run_prefs (evs : list App.Event) (st : App.State) :
  App.prefs (App.run evs st) = App.prefs st
  /\ App.world (App.run evs st) = App.world st.
Proof.
  revert st. induction evs as [| ev evs IH]; intros st; [split; reflexivity |].
  unfold App.run in *. simpl. destruct (IH (App.step st ev)) as [-> ->].
  destruct ev; split; reflexivity.
Qed.

(** The selection after a run is decided by its last operation. *)
Lemma run_last (evs : list App.Event) (ev : App.Event) (st : App.State) :
  App.activePoint (App.run (evs ++ [ev]) st)
  = match ev with
    | App.MarkerClick point => Some point
    | App.CloseInfoBox => None
    end.
Proof.
  unfold App.run. rewrite foldl_snoc. destruct ev; reflexivity.
Qed.

Lemma rotationEnabled_gate (st : App.State) :
  App.rotationEnabled st
  = truthy (App.isAutoRotating (App.prefs st)) && App.not_activePoint st.
Proof.
  unfold App.rotationEnabled, App.actualIsRotating, js_and.
  destruct (truthy (App.isAutoRotating (App.prefs st))) eqn:E; simpl; [reflexivity | exact E].
Qed.

(** C2.  Start from any settings whose auto-rotate preference is the boolean
    [b], any world and any selection, and apply any sequence of marker
    clicks and closes.  Then at most one detail view is rendered and at most
    one hotspot of the registry is the selected one; the rotation property
    handed to the model is [true] exactly when [b] is [true] and nothing is
    selected; while a hotspot is selected, rotation and orbit control are
    both off whatever [b] is; and closing the detail view clears the
    selection, hands [b] itself to the model and enables orbit control. *)
Theorem selection_exclusive_rotation_gated
    (p : App.Prefs) (w : World) (active0 : option PointData)
    (b : bool) (evs : list App.Event) :
  let st0 := {| App.prefs := App.set_field App.FIsAutoRotating (VBool b) p;
                App.activePoint := active0;
                App.world := w |} in
  let st := App.run evs st0 in
  (length (App.renderedInfoBoxes st) <= 1)%nat
  /\ (length (App.activeHotspots st) <= 1)%nat
  /\ (App.actualIsRotating st = VBool true <-> b = true /\ App.activePoint st = None)
  /\ App.rotationEnabled st = b && App.not_activePoint st
  /\ match App.activePoint st with
     | Some _ => App.rotationEnabled st = false /\ App.orbitControlsEnabled st = false
     | None => App.rotationEnabled st = b /\ App.orbitControlsEnabled st = true
     end
  /\ (let st' := App.handleCloseInfoBox st in
      App.activePoint st' = None
      /\ App.actualIsRotating st' = VBool b
      /\ App.orbitControlsEnabled st' = true).
Proof.
  intros st0 st.
  assert (Hp : App.isAutoRotating (App.prefs st) = VBool b).
  { unfold st. destruct (run_prefs evs st0) as [-> _]. destruct p; reflexivity. }
  pose proof (rotationEnabled_gate st) as Hgate. rewrite Hp in Hgate. simpl in Hgate.
  clearbody st. clear st0.
  split; [| split; [| split; [| split; [exact Hgate | split]]]].
  - unfold App.renderedInfoBoxes. destruct (App.activePoint st); simpl; lia.
  - unfold App.activeHotspots. destruct (App.activePoint st) as [point |]; simpl; [| lia].
    apply at_most_one_hotspot_per_id.
  - unfold App.actualIsRotating, js_and, App.not_activePoint. rewrite Hp. simpl.
    destruct b, (App.activePoint st); split;
      first [ intros [? ?]; congruence | intros ?; try discriminate; auto ].
  - rewrite Hgate. unfold App.orbitControlsEnabled, App.not_activePoint.
    destruct (App.activePoint st), b; simpl; split; reflexivity.
  - cbn zeta. unfold App.actualIsRotating, js_and, App.orbitControlsEnabled, App.not_activePoint.
    simpl. rewrite Hp. destruct b; simpl; repeat split; reflexivity.
Qed.

End SelectionFacts.

(** ** Preference store *)

Section MonadFacts.
Context {S A B : Type}.

Lemma mbind_normal (m : M S A) (k : A -> M S B) (s s' : S) (a : A) :
  m s = (Normal a, s') -> (m ≫= k) s = k a s'.
Proof. intros E. unfold mbind, M_bind, bind. rewrite E. reflexivity. Qed.

Lemma mbind_thrown (m : M S A) (k : A -> M S B) (s s' : S) (e : JSError) :
  m s = (Thrown e, s') -> (m ≫= k) s = (Thrown e, s').
Proof. intros E. unfold mbind, M_bind, bind. rewrite E. reflexivity. Qed.

End MonadFacts.

Section HookFacts.
Context (B : Browser).

(** Writing an entry either fails, leaving the storage as it was, or
    installs the entry. *)
Lemma setItem_cases (key value : string) (w : World) :
  (exists e, setItem B key value w = (Thrown e, w))
  \/ setItem B key value w
     = (Normal tt, {| localStorage := <[key := value]> (localStorage w);
                      console := console w |}).
Proof.
  unfold setItem. destruct (setItem_throws B (localStorage w) key value) as [e |];
    [left; exists e; reflexivity | right; reflexivity].
Qed.

(** A setter never throws: it stores the value in the cell, and the storage
    is either unchanged (the write failed and was logged) or updated. *)
Lemma setValue_spec (key : string) (storedValue v : JSValue) (cell : option JSValue) (w : World) :
  exists w',
    setValue B key storedValue (Plain v) (cell, w) = (Normal tt, (Some v, w'))
    /\ (localStorage w' = localStorage w
        \/ localStorage w' = <[key := JSON_stringify B v]> (localStorage w)).
Proof.
  unfold setValue, try_catch, setStoredValue.
  unfold mbind, M_bind, bind, modify, liftW. simpl.
  destruct (setItem_cases key (JSON_stringify B v) w) as [[e E] | E]; rewrite E; simpl.
  - eexists; split; [reflexivity | left; reflexivity].
  - eexists; split; [reflexivity | right; reflexivity].
Qed.

(** A render of a mounted hook returns the cell and changes nothing. *)
Lemma useLocalStorage_mounted (key : string) (initialValue v : JSValue) (w : World) :
  useLocalStorage B key initialValue (Some v, w)
  = (Normal (v, setValue B key v), (Some v, w)).
Proof. reflexivity. Qed.

(** The initializer never throws. *)
Lemma initialState_total (key : string) (initialValue : JSValue) (w : World) :
  exists v w', initialState B key initialValue w = (Normal v, w')
               /\ localStorage w' = localStorage w.
Proof.
  unfold initialState, try_catch, getItem, parse, console_log.
  unfold mbind, M_bind, bind, mret, M_ret, ret, modify, throw.
  destruct (getItem_throws B (localStorage w) key); simpl; [eauto |].
  destruct (localStorage w !! key) as [text |]; simpl; [| eauto].
  destruct (negb (String.eqb text "")); simpl; [| eauto].
  destruct (JSON_parse B text); simpl; eauto.
Qed.

(** On its first render too the hook returns normally and fills its cell. *)
Lemma useLocalStorage_total (key : string) (initialValue : JSValue) (st : HookSt) :
  exists v w', useLocalStorage B key initialValue st
               = (Normal (v, setValue B key v), (Some v, w'))
               /\ localStorage w' = localStorage (snd st).
Proof.
  destruct st as [[v |] w]; [exists v, w; split; reflexivity |].
  destruct (initialState_total key initialValue w) as (v & w' & E & Hls).
  exists v, w'. split; [| exact Hls].
  unfold useLocalStorage, useState. unfold mbind, M_bind, bind. rewrite E. reflexivity.
Qed.

(** C3.  In one session of a hook on any key (rendered once with any initial
    value, from an empty or a filled cell), calling the setter it returned
    with a value [v] and rendering again with any default returns exactly
    [v], on every browser and whether or not the write to the storage
    failed; likewise each of the nine setters of the application leaves [v]
    in its own field, without throwing. *)
Theorem set_then_get_returns_value
    (key : string) (v initialValue default : JSValue)
    (cell : option JSValue) (w : World) (f : App.Field) (st : App.State) :
  fst (('(_, setValue) ← useLocalStorage B key initialValue;
        setValue (Plain v) ;;
        '(storedValue, _) ← useLocalStorage B key default;
        mret storedValue) (cell, w))
  = Normal v
  /\ fst (App.setter B f (Plain v) st) = Normal tt
  /\ App.get_field f (App.prefs (snd (App.setter B f (Plain v) st))) = v.
Proof.
  split.
  - destruct (useLocalStorage_total key initialValue (cell, w)) as (v0 & w0 & E0 & _).
    rewrite (mbind_normal _ _ _ _ _ E0).
    destruct (setValue_spec key v0 v (Some v0) w0) as (w1 & E1 & _).
    rewrite (mbind_normal _ _ _ _ _ E1).
    rewrite (mbind_normal _ _ _ _ _ (useLocalStorage_mounted key default v w1)).
    reflexivity.
  - unfold App.setter, App.zoom.
    rewrite (mbind_normal _ _ _ _ _
               (useLocalStorage_mounted (App.key f) (App.initialValue f) _ (App.world st))).
    destruct (setValue_spec (App.key f) (App.get_field f (App.prefs st)) v
                (Some (App.get_field f (App.prefs st))) (App.world st)) as (w1 & E1 & _).
    rewrite E1. simpl. split; [reflexivity |].
    destruct (App.prefs st), f; reflexivity.
Qed.

End HookFacts.

Section LoadFacts.
Context (B : Browser).

(** The first render of a hook returns normally, leaves the entries alone,
    and yields the initial value when the entry cannot be read back. *)
Lemma firstRender_spec (key : string) (initialValue : JSValue) (w : World) :
  exists v w',
    App.firstRender B key initialValue w = (Normal v, w')
    /\ localStorage w' = localStorage w
    /\ (unreadable B (localStorage w) key -> v = initialValue).
Proof.
  unfold App.firstRender, useLocalStorage, useState, initialState, try_catch,
    getItem, parse, console_log.
  unfold mbind, M_bind, bind, mret, M_ret, ret, modify, throw.
  destruct (getItem_throws B (localStorage w) key); simpl;
    [do 2 eexists; repeat split; reflexivity |].
  destruct (localStorage w !! key) as [text |] eqn:Hget; simpl;
    [| do 2 eexists; repeat split; reflexivity].
  destruct (negb (String.eqb text "")); simpl;
    [| do 2 eexists; repeat split; reflexivity].
  destruct (JSON_parse B text) as [v |] eqn:Hparse; simpl.
  - do 2 eexists; repeat split.
    intros [Habs | (text' & Hsome & Hbad)]; congruence.
  - do 2 eexists; repeat split; reflexivity.
Qed.

(** Mounting the application returns normally with nothing selected and
    the entries untouched; a field whose entry cannot be read back holds its
    initial value. *)
Lemma mount_spec (w : World) :
  exists st w',
    App.mount B w = (Normal st, w')
    /\ App.world st = w'
    /\ localStorage w' = localStorage w
    /\ App.activePoint st = None
    /\ forall f, unreadable B (localStorage w) (App.key f) ->
                 App.get_field f (App.prefs st) = App.initialValue f.
Proof.
  unfold App.mount.
  destruct (firstRender_spec "isAutoRotating" (VBool true) w) as (v1 & w1 & E1 & L1 & D1).
  destruct (firstRender_spec "ambientIntensity" (VNum 0) w1) as (v2 & w2 & E2 & L2 & D2).
  destruct (firstRender_spec "directionalIntensity" (VNum 2) w2) as (v3 & w3 & E3 & L3 & D3).
  destruct (firstRender_spec "lightAngle" (VNum 70) w3) as (v4 & w4 & E4 & L4 & D4).
  destruct (firstRender_spec "showPoints" (VBool true) w4) as (v5 & w5 & E5 & L5 & D5).
  destruct (firstRender_spec "pointSize" (VNum 0.6) w5) as (v6 & w6 & E6 & L6 & D6).
  destruct (firstRender_spec "rotationSpeed" (VNum 0.3) w6) as (v7 & w7 & E7 & L7 & D7).
  destruct (firstRender_spec "isPropellerSpinning" (VBool true) w7) as (v8 & w8 & E8 & L8 & D8).
  destruct (firstRender_spec "propellerSpeed" (VNum 15) w8) as (v9 & w9 & E9 & L9 & D9).
  rewrite (mbind_normal _ _ _ _ _ E1), (mbind_normal _ _ _ _ _ E2),
    (mbind_normal _ _ _ _ _ E3), (mbind_normal _ _ _ _ _ E4),
    (mbind_normal _ _ _ _ _ E5), (mbind_normal _ _ _ _ _ E6),
    (mbind_normal _ _ _ _ _ E7), (mbind_normal _ _ _ _ _ E8),
    (mbind_normal _ _ _ _ _ E9).
  do 2 eexists. split; [reflexivity |]. split; [reflexivity |].
  rewrite L2, L3, L4, L5, L6, L7, L8, L9 in *. rewrite L1 in *.
  split; [reflexivity |]. split; [reflexivity |].
  intros f Hf. destruct f; simpl in *; auto.
Qed.

(** C4.  On every browser and for each of the nine fields: if the persisted
    entry of the field is absent, or its text fails to deserialize, then the
    hook of that field returns the field's default normally, and so does the
    mounted application for that field.  In particular, mounting on a
    storage without entries returns normally with isAutoRotating = true,
    ambientIntensity = 0, directionalIntensity = 2, lightAngle = 70,
    showPoints = true, pointSize = 0.6, rotationSpeed = 0.3,
    isPropellerSpinning = true and propellerSpeed = 15. *)
Theorem load_falls_back_to_default (f : App.Field) (w : World) :
  unreadable B (localStorage w) (App.key f) ->
  fst (App.firstRender B (App.key f) (App.initialValue f) w) = Normal (App.initialValue f)
  /\ match App.mount B w with
     | (Normal st, _) => App.get_field f (App.prefs st) = App.initialValue f
     | (Thrown _, _) => False
     end
  /\ forall log : list JSError,
       match App.mount B {| localStorage := ∅; console := log |} with
       | (Normal st, _) =>
           App.prefs st
           = {| App.isAutoRotating := VBool true;
                App.ambientIntensity := VNum 0;
                App.directionalIntensity := VNum 2;
                App.lightAngle := VNum 70;
                App.showPoints := VBool true;
                App.pointSize := VNum 0.6;
                App.rotationSpeed := VNum 0.3;
                App.isPropellerSpinning := VBool true;
                App.propellerSpeed := VNum 15 |}
           /\ App.activePoint st = None
       | (Thrown _, _) => False
       end.
Proof.
  intros Hf. split; [| split].
  - destruct (firstRender_spec (App.key f) (App.initialValue f) w) as (v & w' & E & _ & D).
    rewrite E. simpl. f_equal. exact (D Hf).
  - destruct (mount_spec w) as (st & w' & E & _ & _ & _ & D). rewrite E. exact (D f Hf).
  - intros log.
    destruct (mount_spec {| localStorage := ∅; console := log |})
      as (st & w' & E & _ & _ & Hact & D).
    rewrite E. split; [| exact Hact].
    assert (Habs : forall g, App.get_field g (App.prefs st) = App.initialValue g).
    { intros g. apply D. left. simpl. apply lookup_empty. }
    pose proof (Habs App.FIsAutoRotating). pose proof (Habs App.FAmbientIntensity).
    pose proof (Habs App.FDirectionalIntensity). pose proof (Habs App.FLightAngle).
    pose proof (Habs App.FShowPoints). pose proof (Habs App.FPointSize).
    pose proof (Habs App.FRotationSpeed). pose proof (Habs App.FIsPropellerSpinning).
    pose proof (Habs App.FPropellerSpeed).
    destruct (App.prefs st). simpl in *. congruence.
Qed.

End LoadFacts.

Lemma load_falls_back_to_default_witness :
  let w := {| localStorage := <["lightAngle" := "{oops"]> ∅; console := [] |} in
  unreadable Reference.browser (localStorage w) (App.key App.FLightAngle)
  /\ fst (App.firstRender Reference.browser "lightAngle" (VNum 70) w) = Normal (VNum 70).
Proof.
  intros w.
  assert (H : unreadable Reference.browser (localStorage w) (App.key App.FLightAngle)).
  { right. exists "{oops". split; reflexivity. }
  split; [exact H |].
  exact (proj1 (load_falls_back_to_default Reference.browser App.FLightAngle w H)).
Defined.

(** A setting changed in one session is read back by the next one: after
    [setRotationSpeed(1.2)] the reference browser holds the text 1.2 under
    the key, and the hooks of the next load yield 1.2 with the other fields
    at their defaults. *)
Example rotationSpeed_survives_reload :
  let '(_, st1) :=
    App.setRotationSpeed Reference.browser (Plain (VNum 1.2))
      {| App.prefs := App.documentedDefaults;
         App.activePoint := None;
         App.world := Reference.emptyWorld |} in
  localStorage (App.world st1) !! "rotationSpeed" = Some "1.2"
  /\ App.prefs <$> (match App.mount Reference.browser (App.world st1) with
                    | (Normal st2, _) => Some st2
                    | (Thrown _, _) => None
                    end)
     = Some (App.set_field App.FRotationSpeed (VNum 1.2) App.documentedDefaults).
Proof. vm_compute. split; reflexivity. Qed.

(** ** Reset *)

Section ResetFacts.
Context (B : Browser).

(** A setter of the application never throws; it puts the value in its
    field and leaves the selection and every entry under another key alone. *)
Lemma setter_spec (f : App.Field) (v : JSValue) (st : App.State) :
  exists w',
    App.setter B f (Plain v) st
    = (Normal tt, {| App.prefs := App.set_field f v (App.prefs st);
                     App.activePoint := App.activePoint st;
                     App.world := w' |})
    /\ forall k, k ≠ App.key f ->
                 localStorage w' !! k = localStorage (App.world st) !! k.
Proof.
  unfold App.setter, App.zoom.
  rewrite (mbind_normal _ _ _ _ _
             (useLocalStorage_mounted B (App.key f) (App.initialValue f) _ (App.world st))).
  destruct (setValue_spec B (App.key f) (App.get_field f (App.prefs st)) v
              (Some (App.get_field f (App.prefs st))) (App.world st)) as (w1 & E1 & Hls).
  rewrite E1. exists w1. split; [reflexivity |].
  intros k Hk. destruct Hls as [-> | ->]; [reflexivity |].
  apply lookup_insert_ne. congruence.
Qed.

Ltac step_setter :=
  match goal with
  | |- context [ mbind ?k (App.setter B ?f (Plain ?v)) ?st ] =>
      let w := fresh "w" in
      let E := fresh "E" in
      let K := fresh "K" in
      destruct (setter_spec f v st) as (w & E & K);
      rewrite (mbind_normal _ k _ _ _ E);
      simpl App.activePoint in *; simpl App.world in *; simpl App.prefs in *
  end.

(** The nine setter calls of [resetSettings], followed by any [rest]. *)
Lemma setters_run {A} (rest : M App.State A) (st : App.State) :
  exists w9,
    (App.setIsAutoRotating B (Plain (VBool true)) ;;
     App.setAmbientIntensity B (Plain (VNum 0)) ;;
     App.setDirectionalIntensity B (Plain (VNum 2)) ;;
     App.setLightAngle B (Plain (VNum 70)) ;;
     App.setShowPoints B (Plain (VBool true)) ;;
     App.setPointSize B (Plain (VNum 0.6)) ;;
     App.setRotationSpeed B (Plain (VNum 0.3)) ;;
     App.setIsPropellerSpinning B (Plain (VBool true)) ;;
     App.setPropellerSpeed B (Plain (VNum 15)) ;;
     rest) st
    = rest {| App.prefs := App.documentedDefaults;
              App.activePoint := App.activePoint st;
              App.world := w9 |}
    /\ forall k, k ∉ App.prefKeys ->
                 localStorage w9 !! k = localStorage (App.world st) !! k.
Proof.
  unfold App.setIsAutoRotating, App.setAmbientIntensity, App.setDirectionalIntensity,
    App.setLightAngle, App.setShowPoints, App.setPointSize, App.setRotationSpeed,
    App.setIsPropellerSpinning, App.setPropellerSpeed.
  do 9 step_setter.
  eexists. split.
  - f_equal. destruct (App.prefs st); reflexivity.
  - intros k Hk. unfold App.prefKeys in Hk. simpl in Hk.
    rewrite !not_elem_of_cons in Hk.
    destruct Hk as (? & ? & ? & ? & ? & ? & ? & ? & ? & _).
    rewrite K7, K6, K5, K4, K3, K2, K1, K0, K by assumption. reflexivity.
Qed.

Lemma keeps_liftWorld {A} (m : M World A) : App.keeps_settings (App.liftWorld m).
Proof.
  intros st. unfold App.liftWorld. destruct (m (App.world st)). split; reflexivity.
Qed.

Lemma keeps_bind {A A'} (m : M App.State A) (k : A -> M App.State A') :
  App.keeps_settings m -> (forall a, App.keeps_settings (k a)) -> App.keeps_settings (m ≫= k).
Proof.
  intros Hm Hk st. destruct (Hm st) as [Hp Ha].
  unfold mbind, M_bind, bind. destruct (m st) as [[a | e] st']; simpl in *.
  - destruct (Hk a st') as [Hp' Ha']. rewrite Hp', Ha'. split; assumption.
  - split; assumption.
Qed.

(** Whatever the storage does, a reset leaves the nine fields at their
    defaults and the selection as it was. *)
Lemma reset_fields_default (st : App.State) :
  App.prefs (snd (App.resetSettings B st)) = App.documentedDefaults
  /\ App.activePoint (snd (App.resetSettings B st)) = App.activePoint st.
Proof.
  unfold App.resetSettings.
  match goal with
  | |- context [ (_ ;; _ ;; _ ;; _ ;; _ ;; _ ;; _ ;; _ ;; _ ;; ?rest) st ] =>
      destruct (setters_run rest st) as (w9 & E & _);
      assert (Hk : App.keeps_settings rest)
        by (repeat (apply keeps_bind; [apply keeps_liftWorld | intros _]);
            apply keeps_liftWorld)
  end.
  rewrite E.
  exact (Hk {| App.prefs := App.documentedDefaults;
               App.activePoint := App.activePoint st;
               App.world := w9 |}).
Qed.

Lemma lookup_deletes (keys : list string) (entries : gmap string string) (k : string) :
  App.deletes keys entries !! k = if bool_decide (k ∈ keys) then None else entries !! k.
Proof.
  revert entries. induction keys as [| k0 keys IH]; intros entries; [reflexivity |].
  unfold App.deletes in *. simpl. rewrite IH.
  destruct (decide (k = k0)) as [-> | Hne].
  - rewrite lookup_delete_eq.
    rewrite (bool_decide_eq_true_2 (k0 ∈ k0 :: keys)) by apply list_elem_of_here.
    destruct (bool_decide (k0 ∈ keys)); reflexivity.
  - rewrite lookup_delete_ne by congruence.
    destruct (decide (k ∈ keys)) as [Hin | Hnin].
    + rewrite !bool_decide_eq_true_2; [reflexivity | | assumption].
      apply list_elem_of_further, Hin.
    + rewrite !bool_decide_eq_false_2; [reflexivity | | assumption].
      rewrite elem_of_cons. intros [? | ?]; contradiction.
Qed.

Lemma removeItem_normal (key : string) (p : App.Prefs) (a : option PointData) (w : World) :
  removeItem_throws B (localStorage w) key = None ->
  App.liftWorld (removeItem B key) {| App.prefs := p; App.activePoint := a; App.world := w |}
  = (Normal tt, {| App.prefs := p; App.activePoint := a;
                   App.world := {| localStorage := delete key (localStorage w);
                                   console := console w |} |}).
Proof.
  intros H. unfold App.liftWorld, removeItem. simpl. rewrite H. reflexivity.
Qed.

(** When no removal raises, a reset returns normally: the fields hold their
    defaults, the selection is as before, the nine keys are gone from the
    storage and every other entry is as before. *)
Lemma reset_run (st : App.State) :
  (forall entries key, removeItem_throws B entries key = None) ->
  exists entries log,
    App.resetSettings B st
    = (Normal tt, {| App.prefs := App.documentedDefaults;
                     App.activePoint := App.activePoint st;
                     App.world := {| localStorage := App.deletes App.prefKeys entries;
                                     console := log |} |})
    /\ forall k, k ∉ App.prefKeys -> entries !! k = localStorage (App.world st) !! k.
Proof.
  intros Hno. unfold App.resetSettings.
  match goal with
  | |- context [ (_ ;; _ ;; _ ;; _ ;; _ ;; _ ;; _ ;; _ ;; _ ;; ?rest) st ] =>
      destruct (setters_run rest st) as (w9 & E & Hoff)
  end.
  rewrite E. exists (localStorage w9), (console w9). split; [| exact Hoff].
  repeat (erewrite mbind_normal by (apply removeItem_normal, Hno); simpl localStorage).
  rewrite removeItem_normal by apply Hno. reflexivity.
Qed.

Lemma prefKeys_absent_after_deletes (entries : gmap string string) (f : App.Field) :
  App.deletes App.prefKeys entries !! App.key f = None.
Proof.
  rewrite lookup_deletes. rewrite bool_decide_eq_true_2; [reflexivity |].
  unfold App.prefKeys. destruct f; simpl; set_solver.
Qed.

(** C5.  From any state of the application and on every browser, a reset
    leaves the nine fields at their documented defaults, and so does a second
    reset right after it.  When no removal from the storage raises, both
    resets return normally, after the first none of the nine keys has a
    persisted entry, and the second changes nothing: fields, selection and
    persisted entries are those the first left. *)
Theorem reset_restores_defaults_idempotent (st : App.State) :
  let st1 := snd (App.resetSettings B st) in
  let st2 := snd (App.resetSettings B st1) in
  App.prefs st1 = App.documentedDefaults
  /\ App.prefs st2 = App.documentedDefaults
  /\ ((forall entries key, removeItem_throws B entries key = None) ->
      fst (App.resetSettings B st) = Normal tt
      /\ fst (App.resetSettings B st1) = Normal tt
      /\ (forall f, localStorage (App.world st1) !! App.key f = None)
      /\ App.prefs st2 = App.prefs st1
      /\ App.activePoint st2 = App.activePoint st1
      /\ localStorage (App.world st2) = localStorage (App.world st1)).
Proof.
  intros st1 st2.
  split; [apply reset_fields_default |]. split; [apply reset_fields_default |].
  intros Hno.
  destruct (reset_run st Hno) as (m1 & log1 & E1 & Hoff1).
  assert (Hst1 : st1 = snd (App.resetSettings B st)) by reflexivity.
  rewrite E1 in Hst1 |- *. cbn [snd] in Hst1.
  destruct (reset_run st1 Hno) as (m2 & log2 & E2 & Hoff2).
  assert (Hst2 : st2 = snd (App.resetSettings B st1)) by reflexivity.
  rewrite E2 in Hst2 |- *. cbn [snd] in Hst2.
  clearbody st1 st2. subst st1 st2.
  cbn [fst snd App.prefs App.activePoint App.world localStorage] in *.
  repeat split.
  - intros f. apply prefKeys_absent_after_deletes.
  - apply map_eq. intros k. rewrite !lookup_deletes.
    destruct (decide (k ∈ App.prefKeys)) as [Hin | Hnin].
    + rewrite bool_decide_eq_true_2 by assumption. reflexivity.
    + rewrite bool_decide_eq_false_2 by assumption.
      rewrite (Hoff2 k Hnin), lookup_deletes.
      rewrite bool_decide_eq_false_2 by assumption. reflexivity.
Qed.

End ResetFacts.

Lemma reset_restores_defaults_idempotent_witness :
  let st := {| App.prefs := App.set_field App.FRotationSpeed (VNum 1.2) App.documentedDefaults;
               App.activePoint := None;
               App.world := {| localStorage := {[ "rotationSpeed" := "1.2" ]};
                               console := [] |} |} in
  (forall entries key, removeItem_throws Reference.browser entries key = None)
  /\ App.prefs (snd (App.resetSettings Reference.browser st)) = App.documentedDefaults
  /\ fst (App.resetSettings Reference.browser st) = Normal tt
  /\ localStorage (App.world (snd (App.resetSettings Reference.browser st)))
       !! "rotationSpeed" = None.
Proof.
  intros st.
  assert (Hno : forall entries key, removeItem_throws Reference.browser entries key = None)
    by reflexivity.
  destruct (reset_restores_defaults_idempotent Reference.browser st)
    as (Hfields & _ & Hrest).
  destruct (Hrest Hno) as (Hret & _ & Hgone & _).
  split; [exact Hno |]. split; [exact Hfields |]. split; [exact Hret |].
  exact (Hgone App.FRotationSpeed).
Defined.

(** C6.  On a browser where removing the entry [lightAngle] raises, with
    every setting persisted, [resetSettings] does not carry on with the
    other keys: it completes by throwing that error.  The fields are all at
    their defaults and the three keys listed before [lightAngle] are removed,
    but [lightAngle] and the five keys listed after it keep a persisted
    entry: their removal was never attempted. *)
Theorem reset_aborts_at_first_failed_removal :
  let B := Reference.browser_removal_fails "lightAngle" in
  let st := {| App.prefs := App.set_field App.FPropellerSpeed (VNum 40) App.documentedDefaults;
               App.activePoint := None;
               App.world := {| localStorage := {[ "propellerSpeed" := "40" ]};
                               console := [] |} |} in
  let r := App.resetSettings B st in
  fst r = Thrown SecurityError
  /\ App.prefs (snd r) = App.documentedDefaults
  /\ map (fun k => localStorage (App.world (snd r)) !! k) App.prefKeys
     = [None; None; None; Some "70"; Some "true"; Some "0.6"; Some "0.3";
        Some "true"; Some "15"].
Proof.
  vm_compute. repeat split; reflexivity.
Qed.

(** Where every access to the storage is denied, the writes of the setters
    are caught one by one, and the first removal ends the reset. *)
Example reset_throws_when_storage_denied :
  let st := {| App.prefs := App.set_field App.FPropellerSpeed (VNum 40) App.documentedDefaults;
               App.activePoint := None;
               App.world := Reference.emptyWorld |} in
  let r := App.resetSettings Reference.browser_storage_denied st in
  fst r = Thrown SecurityError
  /\ App.prefs (snd r) = App.documentedDefaults
  /\ length (console (App.world (snd r))) = 9%nat.
Proof. vm_compute. repeat split; reflexivity. Qed.

(** ** Fullscreen observer *)

Section FullscreenFacts.
Import Fullscreen.

(** The chain of [||] yields the first accessor holding an element. *)
Lemma probe_chain_first (doc : Document) :
  ref_truthy
    (ref_or (ref_or (ref_or (fullscreenElement doc) (mozFullScreenElement doc))
                    (webkitFullscreenElement doc))
            (msFullscreenElement doc))
  = ref_truthy (firstNonEmpty doc).
Proof.
  unfold firstNonEmpty, ref_or.
  destruct (fullscreenElement doc), (mozFullScreenElement doc),
    (webkitFullscreenElement doc), (msFullscreenElement doc); reflexivity.
Qed.

Lemma bangbang_truthy (r : JSRef) : bangbang r = ref_truthy r.
Proof. unfold bangbang. apply negb_involutive. Qed.

(** C7.  On a platform with none of the eight request and exit methods, the
    toggle completes normally, calls nothing and leaves the hook, hence the
    reported fullscreen state, exactly as it was. *)
Theorem toggle_without_methods_is_noop (doc : Document) (h : Hook) :
  noFullscreenMethods doc ->
  toggleFullscreen doc h = (Normal tt, h)
  /\ isFullscreen (snd (toggleFullscreen doc h)) = isFullscreen h.
Proof.
  intros (H1 & H2 & H3 & H4 & H5 & H6 & H7 & H8).
  assert (E : toggleFullscreen doc h = (Normal tt, h)).
  { unfold toggleFullscreen. rewrite H1, H2, H3, H4, H5, H6, H7, H8.
    destruct (negb _); reflexivity. }
  rewrite E. split; reflexivity.
Qed.

Lemma toggle_without_methods_is_noop_witness :
  let doc := {| fullscreenElement := Null;
                mozFullScreenElement := Undefined;
                webkitFullscreenElement := Undefined;
                msFullscreenElement := Undefined;
                requestFullscreen := false; mozRequestFullScreen := false;
                webkitRequestFullscreen := false; msRequestFullscreen := false;
                exitFullscreen := false; mozCancelFullScreen := false;
                webkitExitFullscreen := false; msExitFullscreen := false |} in
  noFullscreenMethods doc
  /\ toggleFullscreen doc (useFullscreen_mount doc) = (Normal tt, useFullscreen_mount doc).
Proof.
  intros doc.
  assert (H : noFullscreenMethods doc) by (repeat split; reflexivity).
  split; [exact H |].
  exact (proj1 (toggle_without_methods_is_noop doc (useFullscreen_mount doc) H)).
Defined.

(** C8.  For every platform state the probe made when the hook is mounted
    and the probe made by the change handler return the same boolean: each
    is true exactly when the first non-empty accessor, in the order
    unprefixed, moz, webkit, ms, holds an element; and the handler stores
    that boolean, whatever the cell held, without calling the platform. *)
Theorem construction_and_handler_probes_agree (doc : Document) (h : Hook) :
  initialIsFullscreen doc = handlerProbe doc
  /\ initialIsFullscreen doc = ref_truthy (firstNonEmpty doc)
  /\ handlerProbe doc = ref_truthy (firstNonEmpty doc)
  /\ handleFullscreenChange doc h
     = (Normal tt, {| isFullscreen := initialIsFullscreen doc; calls := calls h |}).
Proof.
  assert (E : initialIsFullscreen doc = ref_truthy (firstNonEmpty doc)).
  { unfold initialIsFullscreen. rewrite bangbang_truthy. apply probe_chain_first. }
  assert (E' : handlerProbe doc = ref_truthy (firstNonEmpty doc)).
  { unfold handlerProbe, handleFullscreenChange, modify. simpl.
    rewrite bangbang_truthy. apply probe_chain_first. }
  repeat split; congruence.
Qed.

(** C10.  Whatever the cached [isFullscreen] cell holds, the toggle
    completes normally, leaves the cell alone and calls the method chosen by
    a probe of the four accessors made at that moment: a request method when
    the probe finds no element, an exit method when it finds one.  Two hooks
    that differ only in the cached cell therefore make the same call. *)
Theorem toggle_decides_by_fresh_probe (doc : Document) (cached cached' : bool) (cs : list Call) :
  toggleFullscreen doc {| isFullscreen := cached; calls := cs |}
  = (Normal tt, {| isFullscreen := cached;
                   calls := (cs ++ chosenCalls doc (ref_truthy (firstNonEmpty doc)))%list |})
  /\ calls (snd (toggleFullscreen doc {| isFullscreen := cached; calls := cs |}))
     = calls (snd (toggleFullscreen doc {| isFullscreen := cached'; calls := cs |}))
  /\ forallb (fun c => Bool.eqb (is_request c) (negb (ref_truthy (firstNonEmpty doc))))
       (chosenCalls doc (ref_truthy (firstNonEmpty doc))) = true.
Proof.
  assert (E : forall c, toggleFullscreen doc {| isFullscreen := c; calls := cs |}
    = (Normal tt, {| isFullscreen := c;
                     calls := (cs ++ chosenCalls doc (ref_truthy (firstNonEmpty doc)))%list |})).
  { intros c. unfold toggleFullscreen. rewrite bangbang_truthy, probe_chain_first.
    unfold chosenCalls, invoke, modify.
    destruct (ref_truthy (firstNonEmpty doc)); simpl;
      repeat match goal with
             | |- context [ if ?b then _ else _ ] => destruct b
             end; simpl; rewrite ?app_nil_r; reflexivity. }
  split; [apply E |]. split; [rewrite !E; reflexivity |].
  unfold chosenCalls.
  destruct (ref_truthy (firstNonEmpty doc)); simpl;
    repeat match goal with
           | |- context [ if ?b then _ else _ ] => destruct b
           end; reflexivity.
Qed.

(** A stale cell: the hook still believes the page is fullscreen after the
    user has left fullscreen; the toggle requests fullscreen. *)
Example toggle_with_stale_cell :
  let doc := {| fullscreenElement := Null;
                mozFullScreenElement := Undefined;
                webkitFullscreenElement := Undefined;
                msFullscreenElement := Undefined;
                requestFullscreen := true; mozRequestFullScreen := false;
                webkitRequestFullscreen := false; msRequestFullscreen := false;
                exitFullscreen := true; mozCancelFullScreen := false;
                webkitExitFullscreen := false; msExitFullscreen := false |} in
  toggleFullscreen doc {| isFullscreen := true; calls := [] |}
  = (Normal tt, {| isFullscreen := true; calls := [call_requestFullscreen] |}).
Proof. reflexivity. Qed.

End FullscreenFacts.

(** ** Animation drivers *)

Section AirplaneFacts.
Import Airplane.

(** A successful lookup refers to a node of the scene bearing that name. *)
Lemma getObjectByName_found (scene : Scene) (wanted : string) (i : nat) :
  getObjectByName scene wanted = Some i ->
  exists node, scene !! i = Some node /\ name node = wanted.
Proof.
  revert i. induction scene as [| node rest IH]; intros i H; simpl in H; [discriminate |].
  destruct (String.eqb (name node) wanted) eqn:E.
  - injection H as <-. exists node. split; [reflexivity |]. apply String.eqb_eq, E.
  - destruct (getObjectByName rest wanted) as [j |]; simpl in H; [| discriminate].
    injection H as <-. apply IH. reflexivity.
Qed.

(** The lookup only reads the names of the nodes. *)
Lemma getObjectByName_names (scene scene' : Scene) (wanted : string) :
  map name scene = map name scene' ->
  getObjectByName scene wanted = getObjectByName scene' wanted.
Proof.
  revert scene'. induction scene as [| node rest IH]; intros [| node' rest'] H;
    simpl in *; try discriminate; [reflexivity |].
  injection H as Hn Hrest. rewrite Hn, (IH rest' Hrest). reflexivity.
Qed.

Lemma findBlades_names (scene scene' : Scene) :
  map name scene = map name scene' -> findBlades scene = findBlades scene'.
Proof.
  intros H. unfold findBlades, bladeNames. simpl.
  rewrite (getObjectByName_names scene scene' "Prop_Blade" H).
  rewrite (getObjectByName_names scene scene' "Prop_" H). reflexivity.
Qed.

(** The blades found are distinct nodes of the scene. *)
Lemma findBlades_distinct (scene : Scene) :
  NoDup (findBlades scene) /\ Forall (fun i => is_Some (scene !! i)) (findBlades scene).
Proof.
  unfold findBlades, bladeNames. simpl.
  destruct (getObjectByName scene "Prop_Blade") as [i |] eqn:Ei;
    destruct (getObjectByName scene "Prop_") as [j |] eqn:Ej; simpl.
  - destruct (getObjectByName_found _ _ _ Ei) as (ni & Hi & Hni).
    destruct (getObjectByName_found _ _ _ Ej) as (nj & Hj & Hnj).
    split.
    + apply NoDup_cons. split; [| apply NoDup_singleton].
      rewrite list_elem_of_singleton. intros ->.
      rewrite Hi in Hj. injection Hj as ->. rewrite Hni in Hnj. discriminate.
    + repeat constructor; eauto.
  - destruct (getObjectByName_found _ _ _ Ei) as (ni & Hi & _).
    split; [apply NoDup_singleton | repeat constructor; eauto].
  - destruct (getObjectByName_found _ _ _ Ej) as (nj & Hj & _).
    split; [apply NoDup_singleton | repeat constructor; eauto].
  - split; constructor.
Qed.

(** Altering each node of a duplicate-free list of places once. *)
Lemma lookup_alter_each (f : Object3D -> Object3D) (blades : list nat) (scene : Scene) (i : nat) :
  NoDup blades ->
  foldl (fun objects blade => alter f blade objects) scene blades !! i
  = if bool_decide (i ∈ blades) then f <$> scene !! i else scene !! i.
Proof.
  intros Hnd. revert scene. induction Hnd as [| b bs Hb Hnd IH]; intros scene; [reflexivity |].
  simpl. rewrite IH. destruct (decide (i = b)) as [-> | Hne].
  - rewrite (bool_decide_eq_false_2 (b ∈ bs)) by assumption.
    rewrite (bool_decide_eq_true_2 (b ∈ b :: bs)) by apply list_elem_of_here.
    apply list_lookup_alter_eq.
  - rewrite list_lookup_alter_ne by congruence.
    destruct (decide (i ∈ bs)) as [Hin | Hnin].
    + rewrite !bool_decide_eq_true_2; [reflexivity | | assumption].
      apply list_elem_of_further, Hin.
    + rewrite !bool_decide_eq_false_2; [reflexivity | | assumption].
      rewrite elem_of_cons. intros [? | ?]; contradiction.
Qed.

Lemma alter_each_names (f : Object3D -> Object3D) (blades : list nat) (scene : Scene) :
  (forall node, name (f node) = name node) ->
  map name (foldl (fun objects blade => alter f blade objects) scene blades) = map name scene.
Proof.
  intros Hf. revert scene. induction blades as [| b bs IH]; intros scene; [reflexivity |].
  simpl. rewrite IH. clear IH. revert b.
  induction scene as [| node rest IHs]; intros [| b]; simpl; try reflexivity.
  - rewrite Hf. reflexivity.
  - f_equal. apply IHs.
Qed.

Lemma getObjectByName_first (objects : Scene) (wanted : string) (i : nat) :
  getObjectByName objects wanted = Some i ->
  forall (j : nat) (node : Object3D),
    (j < i)%nat -> objects !! j = Some node -> name node ≠ wanted.
Proof.
  revert i. induction objects as [| node0 rest IH]; intros i H; simpl in H; [discriminate |].
  destruct (String.eqb (name node0) wanted) eqn:E.
  - injection H as <-. intros j node Hlt. lia.
  - destruct (getObjectByName rest wanted) as [i' |] eqn:E'; simpl in H; [| discriminate].
    injection H as <-. intros [| j] node Hlt Hj; simpl in Hj.
    + injection Hj as <-. apply String.eqb_neq, E.
    + apply (IH i' eq_refl j node); [lia | exact Hj].
Qed.

(** The first node bearing a name is the one the lookup returns. *)
Lemma getObjectByName_complete (objects : Scene) (wanted : string) (i : nat) (node : Object3D) :
  objects !! i = Some node ->
  name node = wanted ->
  (forall (j : nat) (node' : Object3D),
     (j < i)%nat -> objects !! j = Some node' -> name node' ≠ wanted) ->
  getObjectByName objects wanted = Some i.
Proof.
  revert i. induction objects as [| node0 rest IH]; intros i Hi Hname Hfirst;
    [discriminate |].
  simpl. destruct i as [| i]; simpl in Hi.
  - injection Hi as ->. rewrite (proj2 (String.eqb_eq _ _) Hname). reflexivity.
  - assert (Hne : name node0 ≠ wanted) by (apply (Hfirst 0%nat node0); [lia | reflexivity]).
    rewrite (proj2 (String.eqb_neq _ _) Hne).
    rewrite (IH i Hi Hname); [reflexivity |].
    intros j node' Hlt Hj. apply (Hfirst (S j) node'); [lia | exact Hj].
Qed.

(** The blades found are exactly the places the two lookups return. *)
Lemma elem_of_findBlades (objects : Scene) (i : nat) :
  i ∈ findBlades objects
  <-> getObjectByName objects "Prop_Blade" = Some i
      \/ getObjectByName objects "Prop_" = Some i.
Proof.
  unfold findBlades, bladeNames. simpl.
  destruct (getObjectByName objects "Prop_Blade") as [a |];
    destruct (getObjectByName objects "Prop_") as [b |]; simpl;
    rewrite ?elem_of_cons, ?elem_of_nil; split;
    intros H; repeat destruct H as [H | H]; subst; try discriminate;
    try (injection H as ->); tauto.
Qed.

(** A node is animated exactly when it is the first one, in visiting order,
    to bear one of the two names. *)
Lemma findBlades_first_named (objects : Scene) (i : nat) :
  i ∈ findBlades objects
  <-> exists node,
        objects !! i = Some node
        /\ name node ∈ bladeNames
        /\ forall (j : nat) (node' : Object3D),
             (j < i)%nat -> objects !! j = Some node' -> name node' ≠ name node.
Proof.
  rewrite elem_of_findBlades. unfold bladeNames. split.
  - intros [H | H]; destruct (getObjectByName_found _ _ _ H) as (node & Hnode & Hname);
      exists node; rewrite Hname; (split; [exact Hnode |]);
      (split; [set_solver | apply (getObjectByName_first _ _ _ H)]).
  - intros (node & Hnode & Hname & Hfirst).
    rewrite !elem_of_cons, elem_of_nil in Hname. destruct Hname as [Hn | [Hn | []]].
    + left. apply (getObjectByName_complete objects _ i node Hnode Hn).
      rewrite <- Hn. exact Hfirst.
    + right. apply (getObjectByName_complete objects _ i node Hnode Hn).
      rewrite <- Hn. exact Hfirst.
Qed.

Lemma spin_roll (delta speed : Q) (blade : Object3D) :
  (rotation_z (spin delta speed blade) == rotation_z blade + speed * delta)%Q
  /\ name (spin delta speed blade) = name blade.
Proof.
  split; [| reflexivity]. unfold spin. simpl. ring.
Qed.

(** C9.  Take a frame whose propeller spin is enabled, with the blades as
    the lookup by the two fixed names found them in the scene.  The blades
    are exactly the nodes that are the first, in visiting order, to bear
    [Prop_Blade] or [Prop_]: each such node is found, and the frame callback
    returns a scene in which it, and no node that is not one of them, has had
    [propellerSpeed * delta] added to its roll angle, once; this scene is the
    same whether the rotation of the model is gated on or off.  The names are
    untouched, so the blades found stay the same from frame to frame.  When
    no blade was found the scene is returned as it is. *)
Theorem propeller_driver_spins_found_blades
    (gate : bool) (rotationSpeed propellerSpeed delta : Q) (fr : Frame) :
  let props := {| isAutoRotating := gate;
                  rotationSpeed := rotationSpeed;
                  isPropellerSpinning := true;
                  propellerSpeed := propellerSpeed |} in
  let blades := findBlades (scene fr) in
  let fr' := useFrame props blades delta fr in
  (forall i : nat,
     scene fr' !! i
     = if bool_decide (i ∈ blades)
       then spin delta propellerSpeed <$> scene fr !! i
       else scene fr !! i)
  /\ (forall blade : Object3D,
        (rotation_z (spin delta propellerSpeed blade)
         == rotation_z blade + propellerSpeed * delta)%Q)
  /\ Forall (fun i => is_Some (scene fr !! i)) blades
  /\ (forall gate' : bool,
        scene (useFrame {| isAutoRotating := gate';
                           rotationSpeed := rotationSpeed;
                           isPropellerSpinning := true;
                           propellerSpeed := propellerSpeed |} blades delta fr)
        = scene fr')
  /\ findBlades (scene fr') = blades
  /\ match blades with
     | [] => scene fr' = scene fr
     | _ :: _ => True
     end
  /\ scene (useFrame props [] delta fr) = scene fr
  /\ (forall (i : nat) (node : Object3D),
        scene fr !! i = Some node ->
        name node ∈ bladeNames ->
        (forall (j : nat) (node' : Object3D),
           (j < i)%nat -> scene fr !! j = Some node' -> name node' ≠ name node) ->
        i ∈ blades
        /\ scene fr' !! i = Some (spin delta propellerSpeed node))
  /\ (forall i : nat,
        i ∈ blades ->
        exists node,
          scene fr !! i = Some node
          /\ name node ∈ bladeNames
          /\ forall (j : nat) (node' : Object3D),
               (j < i)%nat -> scene fr !! j = Some node' -> name node' ≠ name node).
Proof.
  intros props blades fr'.
  destruct (findBlades_distinct (scene fr)) as [Hnd Hin]. fold blades in Hnd, Hin.
  assert (Hscene : scene fr'
    = foldl (fun objects blade => alter (spin delta propellerSpeed) blade objects)
        (scene fr) blades).
  { unfold fr', useFrame. simpl. destruct blades; reflexivity. }
  assert (Hlookup : forall i : nat,
     scene fr' !! i
     = if bool_decide (i ∈ blades)
       then spin delta propellerSpeed <$> scene fr !! i
       else scene fr !! i).
  { intros i. rewrite Hscene. apply lookup_alter_each, Hnd. }
  split; [exact Hlookup |].
  split; [intros blade; apply spin_roll |].
  split; [exact Hin |].
  split; [intros gate'; reflexivity |].
  split; [rewrite Hscene; apply findBlades_names, alter_each_names; reflexivity |].
  split; [rewrite Hscene; destruct blades; [reflexivity | exact I] |].
  split; [reflexivity |].
  split.
  - intros i node Hnode Hname Hfirst.
    assert (Hi : i ∈ blades).
    { apply findBlades_first_named. exists node. repeat split; assumption. }
    split; [exact Hi |].
    rewrite Hlookup, bool_decide_eq_true_2 by exact Hi. rewrite Hnode. reflexivity.
  - intros i Hi. apply findBlades_first_named, Hi.
Qed.

Lemma propeller_driver_spins_found_blades_witness :
  let model := [ {| name := "Fuselage"; rotation_z := 0 |};
                 {| name := "Prop_Blade"; rotation_z := 1 |};
                 {| name := "Prop_"; rotation_z := 2 |} ] in
  let props := {| isAutoRotating := false; rotationSpeed := 0.3;
                  isPropellerSpinning := true; propellerSpeed := 15 |} in
  model !! 2%nat = Some {| name := "Prop_"; rotation_z := 2 |}
  /\ "Prop_" ∈ bladeNames
  /\ (forall (j : nat) (node' : Object3D),
        (j < 2)%nat -> model !! j = Some node' -> name node' ≠ "Prop_")
  /\ 2%nat ∈ findBlades model
  /\ scene (useFrame props (findBlades model) 0.02 (mountFrame model)) !! 2%nat
     = Some (spin 0.02 15 {| name := "Prop_"; rotation_z := 2 |}).
Proof.
  intros model props.
  assert (H1 : model !! 2%nat = Some {| name := "Prop_"; rotation_z := 2 |}) by reflexivity.
  assert (H2 : "Prop_" ∈ bladeNames)
    by (apply (bool_decide_unpack _); vm_compute; exact I).
  assert (H3 : forall (j : nat) (node' : Object3D),
             (j < 2)%nat -> model !! j = Some node' -> name node' ≠ "Prop_").
  { intros [| [| j]] node' Hlt Hj; [| | lia]; simpl in Hj; injection Hj as <-;
      simpl; discriminate. }
  split; [exact H1 |]. split; [exact H2 |]. split; [exact H3 |].
  destruct (propeller_driver_spins_found_blades false 0.3 15 0.02 (mountFrame model))
    as (_ & _ & _ & _ & _ & _ & _ & Hfound & _).
  exact (Hfound 2%nat {| name := "Prop_"; rotation_z := 2 |} H1 H2 H3).
Defined.

(** A model with both parts, and a model with neither. *)
Example propeller_frame_on_model :
  let model := [ {| name := "Fuselage"; rotation_z := 0 |};
                 {| name := "Prop_Blade"; rotation_z := 1 |};
                 {| name := "Prop_"; rotation_z := 2 |} ] in
  let props := {| isAutoRotating := false; rotationSpeed := 0.3;
                  isPropellerSpinning := true; propellerSpeed := 15 |} in
  findBlades model = [1%nat; 2%nat]
  /\ map rotation_z (scene (useFrame props (findBlades model) 0.02 (mountFrame model)))
     = [0; 1 + 0.02 * 15; 2 + 0.02 * 15]%Q
  /\ modelRef (useFrame props (findBlades model) 0.02 (mountFrame model)) = Some 3%Q
  /\ useFrame props (findBlades [ {| name := "Fuselage"; rotation_z := 0 |} ]) 0.02
       (mountFrame [ {| name := "Fuselage"; rotation_z := 0 |} ])
     = mountFrame [ {| name := "Fuselage"; rotation_z := 0 |} ].
Proof. repeat split; reflexivity. Qed.

End AirplaneFacts.

(** * Part III: further properties of the components *)

(** ** Marker scale: the cap *)

Section OverlayRegimes.
Local Open Scope Q_scope.

(** X1.  For a positive distance and a non-negative size the marker scale
    never exceeds the product [0.8 * size]; up to the distance 6.25 the
    distance term is at its cap, so the scale is that product, which is above
    0.8 as soon as the size is above 1. *)
Theorem marker_scale_capped (d s : Q) :
  0 < d -> 0 <= s ->
  Overlay.scaleFactor d s <= 0.8 * s
  /\ (d <= 6.25 ->
      Qmin (1 / (d * 0.2)) 0.8 == 0.8
      /\ Overlay.scaleFactor d s == 0.8 * s
      /\ (1 < s -> 0.8 < Overlay.scaleFactor d s)).
Proof.
  intros Hd Hs. split.
  - unfold Overlay.scaleFactor. apply Qmult_le_compat_r; [apply Q.le_min_r | exact Hs].
  - intros Hle.
    assert (Hterm : 0.8 <= 1 / (d * 0.2)).
    { apply Qle_shift_div_l; [apply sensitivity_pos, Hd |].
      setoid_replace (0.8 * (d * 0.2)) with (d * 0.16) using relation Qeq by ring.
      setoid_replace 1 with (6.25 * 0.16) using relation Qeq by reflexivity.
      apply Qmult_le_compat_r; [exact Hle | discriminate]. }
    assert (Hnear : Overlay.scaleFactor d s == 0.8 * s)
      by (apply scaleFactor_near; assumption).
    split; [apply Q.min_r, Hterm |]. split; [exact Hnear |].
    intros Hbig. rewrite Hnear.
    setoid_replace 0.8 with (0.8 * 1) using relation Qeq at 1 by ring.
    apply Qmult_lt_l; [reflexivity | exact Hbig].
Qed.

Lemma marker_scale_capped_witness :
  0 < 5 /\ 0 <= 2 /\ 5 <= 6.25 /\ 1 < 2
  /\ Overlay.scaleFactor 5 2 <= 0.8 * 2
  /\ Overlay.scaleFactor 5 2 == 0.8 * 2
  /\ 0.8 < Overlay.scaleFactor 5 2.
Proof.
  assert (Hd : 0 < 5) by reflexivity.
  assert (Hs : 0 <= 2) by (unfold Qle; simpl; lia).
  assert (Hle : 5 <= 6.25) by (unfold Qle; simpl; lia).
  assert (Hbig : 1 < 2) by reflexivity.
  destruct (marker_scale_capped 5 2 Hd Hs) as (Hcap & Hnear).
  destruct (Hnear Hle) as (_ & Heq & Habove).
  split; [exact Hd |]. split; [exact Hs |]. split; [exact Hle |]. split; [exact Hbig |].
  split; [exact Hcap |]. split; [exact Heq | exact (Habove Hbig)].
Defined.

End OverlayRegimes.

(** ** Loading indicator *)

Section LoadingFacts.
Import LoadingAnimation.

Lemma length_repeat_dot (count : nat) : String.length (repeat_dot count) = count.
Proof. induction count as [| count IH]; simpl; [reflexivity | rewrite IH; reflexivity]. Qed.

Lemma length_render (title : string) (dots : Z) :
  String.length (render title dots) = (String.length title + Z.to_nat dots)%nat.
Proof.
  unfold render. induction title as [| c title IH]; simpl.
  - apply length_repeat_dot.
  - rewrite IH. reflexivity.
Qed.

(** X2.  After [n] ticks the indicator shows [1 + n mod 3] dots: the count
    stays between 1 and 3 and comes back every three ticks, and the text
    rendered is the title followed by one, two or three full stops according
    to [n mod 3]. *)
Theorem loading_dots_cycle (title : string) (n : nat) :
  dotsAfter n = (1 + Z.of_nat n mod 3)%Z
  /\ (1 <= dotsAfter n <= 3)%Z
  /\ dotsAfter (n + 3) = dotsAfter n
  /\ render title (dotsAfter n)
     = title +:+ match (Z.of_nat n mod 3)%Z with
                 | 0%Z => "."
                 | 1%Z => ".."
                 | _ => "..."
                 end
  /\ String.length (render title (dotsAfter n))
     = (String.length title + 1 + Z.to_nat (Z.of_nat n mod 3))%nat.
Proof.
  assert (Hclosed : forall k, dotsAfter k = (1 + Z.of_nat k mod 3)%Z).
  { induction k as [| k IH]; [reflexivity |].
    unfold dotsAfter in *. simpl Nat.iter. rewrite IH. unfold nextDots.
    rewrite Nat2Z.inj_succ.
    destruct (Z.ltb_spec (1 + Z.of_nat k mod 3) 3);
      Z.div_mod_to_equations; lia. }
  assert (Hrange : (0 <= Z.of_nat n mod 3 < 3)%Z) by (apply Z.mod_pos_bound; lia).
  split; [apply Hclosed |]. split; [| split; [| split]].
  - rewrite Hclosed. lia.
  - rewrite !Hclosed. rewrite Nat2Z.inj_add. Z.div_mod_to_equations. lia.
  - rewrite Hclosed. unfold render.
    assert (Hcases : (Z.of_nat n mod 3 = 0 \/ Z.of_nat n mod 3 = 1 \/ Z.of_nat n mod 3 = 2)%Z)
      by lia.
    destruct Hcases as [-> | [-> | ->]]; reflexivity.
  - rewrite length_render, Hclosed. lia.
Qed.

End LoadingFacts.

(** ** Listener lists *)

Section ListenerFacts.

Lemma filter_out_fresh (x : string * nat) (ls : list (string * nat)) :
  x ∉ ls -> filter (fun l => l ≠ x) ls = ls.
Proof.
  induction ls as [| l ls IH]; intros Hfresh; [reflexivity |].
  rewrite not_elem_of_cons in Hfresh. destruct Hfresh as [Hne Hfresh].
  rewrite filter_cons_True by congruence. rewrite IH by assumption. reflexivity.
Qed.

Lemma removeEventListener_fresh (type : string) (callback : nat) (ls : list Dom.Listener) :
  (type, callback) ∉ ls -> Dom.removeEventListener type callback ls = ls.
Proof. apply filter_out_fresh. Qed.

Lemma removeEventListener_added (type : string) (callback : nat) (ls : list Dom.Listener) :
  (type, callback) ∉ ls ->
  Dom.removeEventListener type callback (Dom.addEventListener type callback ls) = ls.
Proof.
  intros Hfresh. unfold Dom.addEventListener.
  rewrite bool_decide_eq_false_2 by assumption.
  unfold Dom.removeEventListener. rewrite filter_app.
  rewrite filter_out_fresh by assumption.
  rewrite filter_cons_False by (intros H; apply H; reflexivity).
  rewrite filter_nil. apply app_nil_r.
Qed.

Lemma elem_of_addEventListener (type : string) (callback : nat) (ls : list Dom.Listener)
    (l : Dom.Listener) :
  l ∈ Dom.addEventListener type callback ls <-> l = (type, callback) \/ l ∈ ls.
Proof.
  unfold Dom.addEventListener. destruct (decide ((type, callback) ∈ ls)) as [Hin | Hnin].
  - rewrite bool_decide_eq_true_2 by assumption. split; [auto |].
    intros [-> | H]; assumption.
  - rewrite bool_decide_eq_false_2 by assumption.
    rewrite elem_of_app, list_elem_of_singleton. tauto.
Qed.

(** Removing one listener commutes with adding another. *)
Lemma removeEventListener_add_other (type type' : string) (callback : nat)
    (ls : list Dom.Listener) :
  type ≠ type' ->
  Dom.removeEventListener type callback (Dom.addEventListener type' callback ls)
  = Dom.addEventListener type' callback (Dom.removeEventListener type callback ls).
Proof.
  intros Hne. unfold Dom.addEventListener.
  assert (Hiff : (type', callback) ∈ Dom.removeEventListener type callback ls
                 <-> (type', callback) ∈ ls).
  { unfold Dom.removeEventListener. rewrite list_elem_of_filter. split; [tauto |].
    intros H. split; [congruence | exact H]. }
  destruct (decide ((type', callback) ∈ ls)) as [Hin | Hnin].
  - rewrite !bool_decide_eq_true_2 by tauto. reflexivity.
  - rewrite !bool_decide_eq_false_2 by tauto.
    unfold Dom.removeEventListener. rewrite filter_app.
    rewrite filter_cons_True by congruence. reflexivity.
Qed.

End ListenerFacts.

(** ** Settings panel *)

Section PanelFacts.
Import Panel.

Lemma handleClickOutside_idempotent (refs : Refs) (target : list nat) (open : bool) :
  handleClickOutside refs target (handleClickOutside refs target open)
  = handleClickOutside refs target open.
Proof.
  unfold handleClickOutside.
  destruct (buttonRef refs) as [b |], (panelRef refs) as [p |];
    repeat match goal with
           | |- context [ contains ?n target ] => destruct (contains n target)
           end; simpl; reflexivity.
Qed.

(** Any number of registered [mousedown] listeners acts as one. *)
Lemma documentMouseDown_spec (refs : Refs) (ls : list Dom.Listener) (target : list nat)
    (open : bool) :
  documentMouseDown refs ls target open = open
  \/ documentMouseDown refs ls target open = handleClickOutside refs target open.
Proof.
  unfold documentMouseDown.
  enough (H : forall o, o = open \/ o = handleClickOutside refs target open ->
            foldl (fun open l => if String.eqb (fst l) "mousedown"
                                 then handleClickOutside refs target open else open) o ls
            = open
            \/ foldl (fun open l => if String.eqb (fst l) "mousedown"
                                    then handleClickOutside refs target open else open) o ls
               = handleClickOutside refs target open)
    by (apply H; left; reflexivity).
  induction ls as [| l ls IH]; intros o Ho; [exact Ho |].
  simpl. apply IH. destruct (String.eqb (fst l) "mousedown"); [| exact Ho].
  right. destruct Ho as [-> | ->]; [reflexivity | apply handleClickOutside_idempotent].
Qed.

(** X3.  A press seen by [handleClickOutside] never opens the panel; it
    leaves an open panel open exactly when the press is inside the mounted
    burger button, or inside the panel, or the panel is not mounted, and
    closes it otherwise. *)
Theorem outside_press_closes_panel (refs : Refs) (target : list nat) (isPanelOpen : bool) :
  handleClickOutside refs target isPanelOpen
  = isPanelOpen
    && (from_option (fun button => contains button target) false (buttonRef refs)
        || from_option (fun panel => contains panel target) true (panelRef refs))
  /\ handleClickOutside refs target false = false.
Proof.
  unfold handleClickOutside.
  destruct (buttonRef refs) as [b |], (panelRef refs) as [p |]; simpl;
    repeat match goal with
           | |- context [ contains ?n target ] => destruct (contains n target)
           end; destruct isPanelOpen; split; reflexivity.
Qed.

(** X4.  A full press on the mounted burger button toggles the panel,
    whether or not the outside-press listener is registered: the
    [mousedown] on the button is ignored by the listener, so an open panel is
    closed by the click and not reopened. *)
Theorem burger_press_toggles_panel
    (refs : Refs) (ls : list Dom.Listener) (target : list nat) (isPanelOpen : bool)
    (button : nat) :
  buttonRef refs = Some button ->
  button ∈ target ->
  pressBurger refs ls target isPanelOpen = negb isPanelOpen.
Proof.
  intros Hb Hin. unfold pressBurger, burger_onClick. f_equal.
  assert (Hh : handleClickOutside refs target isPanelOpen = isPanelOpen).
  { unfold handleClickOutside. rewrite Hb. unfold contains.
    rewrite bool_decide_eq_true_2 by assumption. reflexivity. }
  destruct (documentMouseDown_spec refs ls target isPanelOpen) as [-> | ->];
    [reflexivity | exact Hh].
Qed.

Lemma burger_press_toggles_panel_witness :
  let refs := {| buttonRef := Some 7%nat; panelRef := Some 3%nat |} in
  buttonRef refs = Some 7%nat
  /\ 7%nat ∈ [9%nat; 7%nat; 1%nat]
  /\ pressBurger refs [("mousedown", 0%nat)] [9%nat; 7%nat; 1%nat] true = false.
Proof.
  intros refs.
  assert (Hb : buttonRef refs = Some 7%nat) by reflexivity.
  assert (Hin : 7%nat ∈ [9%nat; 7%nat; 1%nat]) by (apply (bool_decide_unpack _); vm_compute; exact I).
  split; [exact Hb |]. split; [exact Hin |].
  exact (burger_press_toggles_panel refs [("mousedown", 0%nat)] [9%nat; 7%nat; 1%nat]
           true 7%nat Hb Hin).
Defined.

(** X5.  The effect registers the [mousedown] listener exactly when the
    panel is open, and its cleanup leaves the listener list as the effect
    found it, for a callback that was not registered before (each run of the
    effect creates its own). *)
Theorem panel_listener_follows_open_state
    (isPanelOpen : bool) (callback : nat) (ls : list Dom.Listener) :
  ("mousedown", callback) ∉ ls ->
  cleanup callback (effect isPanelOpen callback ls) = ls
  /\ bool_decide (("mousedown", callback) ∈ effect isPanelOpen callback ls) = isPanelOpen.
Proof.
  intros Hfresh. unfold cleanup, effect. destruct isPanelOpen.
  - split; [apply removeEventListener_added, Hfresh |].
    apply bool_decide_eq_true_2, elem_of_addEventListener. left; reflexivity.
  - split; [apply removeEventListener_fresh, Hfresh |].
    apply bool_decide_eq_false_2, Hfresh.
Qed.

Lemma panel_listener_follows_open_state_witness :
  (("mousedown", 4%nat) ∉ [("fullscreenchange", 1%nat)])
  /\ cleanup 4 (effect true 4 [("fullscreenchange", 1%nat)]) = [("fullscreenchange", 1%nat)].
Proof.
  assert (H : ("mousedown", 4%nat) ∉ [("fullscreenchange", 1%nat)]).
  { apply (bool_decide_unpack _). vm_compute. exact I. }
  split; [exact H |].
  exact (proj1 (panel_listener_follows_open_state true 4 [("fullscreenchange", 1%nat)] H)).
Defined.

End PanelFacts.

(** ** Clicks on the detail view and on a marker *)

Section ClickFacts.

(** X6.  For any close callback, a click inside the card of the detail view
    does not reach the backdrop and closes nothing, while a click on the
    backdrop or on the close button runs the callback exactly once (the
    click on the button is stopped at the card).  In the application, where
    the callback is [handleCloseInfoBox], the first keeps the selection and
    the other two clear it. *)
Theorem detail_view_click_closes_once
    {S : Type} (onClose : S -> S) (s : S) (st : App.State) :
  InfoBox.click onClose InfoBox.Content s = s
  /\ InfoBox.click onClose InfoBox.Backdrop s = onClose s
  /\ InfoBox.click onClose InfoBox.CloseButton s = onClose s
  /\ App.activePoint (InfoBox.click App.handleCloseInfoBox InfoBox.Content st)
     = App.activePoint st
  /\ App.activePoint (InfoBox.click App.handleCloseInfoBox InfoBox.Backdrop st) = None
  /\ App.activePoint (InfoBox.click App.handleCloseInfoBox InfoBox.CloseButton st) = None.
Proof. repeat split; reflexivity. Qed.

(** X7.  A pointer-down on a marker selects the hotspot of that marker,
    whatever was selected before, and is delivered to no handler around the
    marker; from then on the rotation handed to the model and the orbit
    control are off. *)
Theorem marker_press_selects_without_propagation
    {S : Type} (onClick : PointData -> S -> S) (outer : list (Dom.Handler S)) (s : S)
    (point : PointData) (outer' : list (Dom.Handler App.State)) (st : App.State) :
  InteractivePoint.pointerDown onClick point outer s = onClick point s
  /\ (let st' := InteractivePoint.pointerDown App.handlePointClick point outer' st in
      App.activePoint st' = Some point
      /\ App.renderedInfoBoxes st' = [point]
      /\ App.rotationEnabled st' = false
      /\ App.orbitControlsEnabled st' = false
      /\ App.prefs st' = App.prefs st).
Proof.
  split; [reflexivity |]. cbn zeta.
  assert (E : InteractivePoint.pointerDown App.handlePointClick point outer' st
              = App.handlePointClick point st) by reflexivity.
  rewrite E. repeat split.
  rewrite rotationEnabled_gate. unfold App.not_activePoint. simpl. apply andb_false_r.
Qed.

End ClickFacts.

(** ** Preference store: loading, writing, sessions *)

Section SessionFacts.
Context (B : Browser).

(** What the first render of a hook returns depends on the entries only. *)
Lemma firstRender_value (key : string) (initialValue : JSValue) (w : World) :
  exists w',
    App.firstRender B key initialValue w
    = (Normal (Session.loaded B (localStorage w) key initialValue), w')
    /\ localStorage w' = localStorage w.
Proof.
  unfold App.firstRender, useLocalStorage, useState, initialState, try_catch,
    getItem, parse, console_log, Session.loaded.
  unfold mbind, M_bind, bind, mret, M_ret, ret, modify, throw.
  destruct (getItem_throws B (localStorage w) key); simpl;
    [eexists; split; reflexivity |].
  destruct (localStorage w !! key) as [text |]; simpl; [| eexists; split; reflexivity].
  destruct (negb (String.eqb text "")); simpl; [| eexists; split; reflexivity].
  destruct (JSON_parse B text); simpl; eexists; split; reflexivity.
Qed.

(** Mounting returns normally with the settings the entries denote. *)
Lemma mount_value (w : World) :
  exists w',
    App.mount B w
    = (Normal {| App.prefs := Session.loadedPrefs B (localStorage w);
                 App.activePoint := None;
                 App.world := w' |}, w')
    /\ localStorage w' = localStorage w.
Proof.
  unfold App.mount.
  destruct (firstRender_value "isAutoRotating" (VBool true) w) as (w1 & E1 & L1).
  destruct (firstRender_value "ambientIntensity" (VNum 0) w1) as (w2 & E2 & L2).
  destruct (firstRender_value "directionalIntensity" (VNum 2) w2) as (w3 & E3 & L3).
  destruct (firstRender_value "lightAngle" (VNum 70) w3) as (w4 & E4 & L4).
  destruct (firstRender_value "showPoints" (VBool true) w4) as (w5 & E5 & L5).
  destruct (firstRender_value "pointSize" (VNum 0.6) w5) as (w6 & E6 & L6).
  destruct (firstRender_value "rotationSpeed" (VNum 0.3) w6) as (w7 & E7 & L7).
  destruct (firstRender_value "isPropellerSpinning" (VBool true) w7) as (w8 & E8 & L8).
  destruct (firstRender_value "propellerSpeed" (VNum 15) w8) as (w9 & E9 & L9).
  rewrite (mbind_normal _ _ _ _ _ E1), (mbind_normal _ _ _ _ _ E2),
    (mbind_normal _ _ _ _ _ E3), (mbind_normal _ _ _ _ _ E4),
    (mbind_normal _ _ _ _ _ E5), (mbind_normal _ _ _ _ _ E6),
    (mbind_normal _ _ _ _ _ E7), (mbind_normal _ _ _ _ _ E8),
    (mbind_normal _ _ _ _ _ E9).
  rewrite L8, L7, L6, L5, L4, L3, L2, L1 in *.
  exists w9. split; [reflexivity | congruence].
Qed.

(** What a setter of the application does, by the outcome of its write. *)
Lemma setter_result (f : App.Field) (value : SetArg) (st : App.State) :
  let v := match value with
           | Updater g => g (App.get_field f (App.prefs st))
           | Plain v => v
           end in
  App.setter B f value st
  = (Normal tt,
     {| App.prefs := App.set_field f v (App.prefs st);
        App.activePoint := App.activePoint st;
        App.world :=
          match setItem_throws B (localStorage (App.world st)) (App.key f)
                  (JSON_stringify B v) with
          | Some e => {| localStorage := localStorage (App.world st);
                         console := (console (App.world st) ++ [e])%list |}
          | None => {| localStorage := <[App.key f := JSON_stringify B v]>
                                         (localStorage (App.world st));
                       console := console (App.world st) |}
          end |}).
Proof.
  intros v. unfold App.setter, App.zoom.
  rewrite (mbind_normal _ _ _ _ _
             (useLocalStorage_mounted B (App.key f) (App.initialValue f) _ (App.world st))).
  unfold setValue, try_catch, setStoredValue, setItem, console_log, liftW.
  unfold mbind, M_bind, bind, modify. simpl. fold v.
  destruct (setItem_throws B (localStorage (App.world st)) (App.key f) (JSON_stringify B v));
    reflexivity.
Qed.

(** X9.  When the write of a setter raises, the setter still returns
    normally with the new value in its field; the persisted entries are
    untouched and the error is appended to the console, so when the page is
    loaded again the hook of that setting returns what the entries held
    before (the parsed entry, or the default), not the new value. *)
Theorem failed_write_keeps_session_value
    (f : App.Field) (v : JSValue) (st : App.State) (e : JSError) :
  setItem_throws B (localStorage (App.world st)) (App.key f) (JSON_stringify B v) = Some e ->
  let r := App.setter B f (Plain v) st in
  fst r = Normal tt
  /\ App.get_field f (App.prefs (snd r)) = v
  /\ localStorage (App.world (snd r)) = localStorage (App.world st)
  /\ console (App.world (snd r)) = (console (App.world st) ++ [e])%list
  /\ fst (App.firstRender B (App.key f) (App.initialValue f) (App.world (snd r)))
     = Normal (Session.loaded B (localStorage (App.world st)) (App.key f)
                 (App.initialValue f)).
Proof.
  intros Hthrow r. unfold r. rewrite (setter_result f (Plain v) st). rewrite Hthrow.
  cbn [fst snd App.prefs App.world localStorage console].
  split; [reflexivity |]. split; [destruct (App.prefs st), f; reflexivity |].
  split; [reflexivity |]. split; [reflexivity |].
  destruct (firstRender_value (App.key f) (App.initialValue f)
              {| localStorage := localStorage (App.world st);
                 console := (console (App.world st) ++ [e])%list |}) as (w' & E & _).
  rewrite E. reflexivity.
Qed.

End SessionFacts.

Lemma failed_write_keeps_session_value_witness :
  let st := {| App.prefs := App.documentedDefaults;
               App.activePoint := None;
               App.world := Reference.emptyWorld |} in
  setItem_throws Reference.browser_storage_denied (localStorage (App.world st))
    (App.key App.FRotationSpeed) (JSON_stringify Reference.browser_storage_denied (VNum 1.2))
  = Some SecurityError
  /\ App.get_field App.FRotationSpeed
       (App.prefs (snd (App.setter Reference.browser_storage_denied App.FRotationSpeed
                          (Plain (VNum 1.2)) st)))
     = VNum 1.2.
Proof.
  intros st.
  assert (H : setItem_throws Reference.browser_storage_denied (localStorage (App.world st))
                (App.key App.FRotationSpeed)
                (JSON_stringify Reference.browser_storage_denied (VNum 1.2))
              = Some SecurityError) by reflexivity.
  split; [exact H |].
  destruct (failed_write_keeps_session_value Reference.browser_storage_denied
              App.FRotationSpeed (VNum 1.2) st SecurityError H) as (_ & Hv & _).
  exact Hv.
Defined.

Section SetterFacts.
Context (B : Browser).

(** A render of the hook returns the cell, filled from the entries on the
    first render. *)
Lemma useLocalStorage_value (key : string) (initialValue : JSValue)
    (cell : option JSValue) (w : World) :
  let v0 := default (Session.loaded B (localStorage w) key initialValue) cell in
  exists w',
    useLocalStorage B key initialValue (cell, w)
    = (Normal (v0, setValue B key v0), (Some v0, w')).
Proof.
  destruct cell as [v |]; simpl; [exists w; reflexivity |].
  unfold useLocalStorage, useState, initialState, try_catch, getItem, parse, console_log,
    Session.loaded.
  unfold mbind, M_bind, bind, mret, M_ret, ret, modify, throw.
  destruct (getItem_throws B (localStorage w) key); simpl; [eexists; reflexivity |].
  destruct (localStorage w !! key) as [text |]; simpl; [| eexists; reflexivity].
  destruct (negb (String.eqb text "")); simpl; [| eexists; reflexivity].
  destruct (JSON_parse B text); simpl; eexists; reflexivity.
Qed.

(** A setter closure never throws and fills the cell with the value, or
    with the updater applied to the value the closure was made with. *)
Lemma setValue_result (key : string) (storedValue : JSValue) (value : SetArg)
    (cell : option JSValue) (w : World) :
  exists w',
    setValue B key storedValue value (cell, w)
    = (Normal tt,
       (Some match value with
             | Updater g => g storedValue
             | Plain v => v
             end, w')).
Proof.
  unfold setValue, try_catch, setStoredValue, setItem, console_log, liftW.
  unfold mbind, M_bind, bind, modify. simpl.
  destruct (setItem_throws B (localStorage w) key _); simpl; eexists; reflexivity.
Qed.

(** X11.  The setter a render returns applies an updater to the value of
    that render: called twice in a row with the updater [g], the same
    closure leaves [g v0] in the cell, not [g (g v0)]; the second application
    takes effect only through the setter of a new render. *)
Theorem updater_applies_to_render_value
    (key : string) (initialValue : JSValue) (g : JSValue -> JSValue)
    (cell : option JSValue) (w : World) :
  let v0 := default (Session.loaded B (localStorage w) key initialValue) cell in
  fst (snd (('(_, setValue) ← useLocalStorage B key initialValue;
             setValue (Updater g) ;;
             setValue (Updater g)) (cell, w)))
  = Some (g v0)
  /\ fst (snd (('(_, setValue) ← useLocalStorage B key initialValue;
                setValue (Updater g) ;;
                '(_, setValue') ← useLocalStorage B key initialValue;
                setValue' (Updater g)) (cell, w)))
     = Some (g (g v0)).
Proof.
  intros v0.
  destruct (useLocalStorage_value key initialValue cell w) as (w0 & E0). fold v0 in E0.
  destruct (setValue_result key v0 (Updater g) (Some v0) w0) as (w1 & E1).
  split.
  - rewrite (mbind_normal _ _ _ _ _ E0). cbn beta iota.
    rewrite (mbind_normal _ _ _ _ _ E1).
    destruct (setValue_result key v0 (Updater g) (Some (g v0)) w1) as (w2 & E2).
    rewrite E2. reflexivity.
  - rewrite (mbind_normal _ _ _ _ _ E0). cbn beta iota.
    rewrite (mbind_normal _ _ _ _ _ E1).
    rewrite (mbind_normal _ _ _ _ _ (useLocalStorage_mounted B key initialValue (g v0) w1)).
    cbn beta iota.
    destruct (setValue_result key (g v0) (Updater g) (Some (g v0)) w1) as (w2 & E2).
    rewrite E2. reflexivity.
Qed.

Lemma get_set_field_other (f g : App.Field) (v : JSValue) (p : App.Prefs) :
  g ≠ f -> App.get_field g (App.set_field f v p) = App.get_field g p.
Proof. intros Hne. destruct p, f, g; try reflexivity; contradiction. Qed.

(** X12.  A setter of the application changes nothing but its own field
    and the entry under its own key: every other field, every entry under
    another key and the selection are as before, and it returns normally
    whether or not its write succeeded. *)
Theorem setter_touches_only_its_field
    (f g : App.Field) (value : SetArg) (k : string) (st : App.State) :
  g ≠ f ->
  k ≠ App.key f ->
  let r := App.setter B f value st in
  fst r = Normal tt
  /\ App.get_field g (App.prefs (snd r)) = App.get_field g (App.prefs st)
  /\ localStorage (App.world (snd r)) !! k = localStorage (App.world st) !! k
  /\ App.activePoint (snd r) = App.activePoint st.
Proof.
  intros Hg Hk r. unfold r. rewrite (setter_result B f value st). simpl.
  split; [reflexivity |]. split; [apply get_set_field_other, Hg |].
  split; [| reflexivity].
  destruct (setItem_throws B _ _ _); simpl; [reflexivity |].
  apply lookup_insert_ne. congruence.
Qed.


End SetterFacts.

Lemma setter_touches_only_its_field_witness :
  let st := {| App.prefs := App.documentedDefaults;
               App.activePoint := None;
               App.world := {| localStorage := {[ "lightAngle" := "90" ]}; console := [] |} |} in
  App.FLightAngle ≠ App.FRotationSpeed
  /\ "lightAngle" ≠ App.key App.FRotationSpeed
  /\ localStorage
       (App.world (snd (App.setter Reference.browser App.FRotationSpeed (Plain (VNum 1.2)) st)))
       !! "lightAngle" = Some "90".
Proof.
  intros st.
  assert (Hg : App.FLightAngle ≠ App.FRotationSpeed) by discriminate.
  assert (Hk : "lightAngle" ≠ App.key App.FRotationSpeed) by discriminate.
  split; [exact Hg |]. split; [exact Hk |].
  destruct (setter_touches_only_its_field Reference.browser App.FRotationSpeed App.FLightAngle
              (Plain (VNum 1.2)) "lightAngle" st Hg Hk) as (_ & _ & Hls & _).
  exact Hls.
Defined.


(** ** The first render and the settings panel: value labels and checkboxes *)

Section PanelValueFacts.
Context (B : Browser) (toFixed : Q -> nat -> string).

(** The labels can be built exactly when the five formatted settings are
    numbers. *)
Lemma valueLabels_defined (p : App.Prefs) :
  match Session.valueLabels toFixed p with
  | Some _ => true
  | None => false
  end
  = forallb (fun f => Session.is_number (App.get_field f p)) Session.numericFields.
Proof.
  unfold Session.valueLabels, Session.numericFields. simpl.
  destruct (App.rotationSpeed p); simpl; try reflexivity;
    destruct (App.propellerSpeed p); simpl; try reflexivity;
    destruct (App.ambientIntensity p); simpl; try reflexivity;
    destruct (App.directionalIntensity p); simpl; try reflexivity;
    destruct (App.pointSize p); simpl; reflexivity.
Qed.

(** The first call of [App] in terms of the entries it finds. *)
Lemma firstCall_spec (w : World) :
  exists w',
    localStorage w' = localStorage w
    /\ Session.firstCall B toFixed w
       = (match Session.valueLabels toFixed (Session.loadedPrefs B (localStorage w)) with
          | Some labels =>
              Session.Returned {| App.prefs := Session.loadedPrefs B (localStorage w);
                                  App.activePoint := None;
                                  App.world := w' |} labels
          | None => Session.ThrewTypeError
          end, w').
Proof.
  destruct (mount_value B w) as (w' & E & Hls). exists w'. split; [exact Hls |].
  unfold Session.firstCall. rewrite E. cbn [App.prefs].
  destruct (Session.valueLabels toFixed (Session.loadedPrefs B (localStorage w)));
    reflexivity.
Qed.



(** X14.  The hook does not check what a persisted entry denotes: when the
    entry of one of the five settings formatted with [toFixed] can be read,
    is not empty and parses to something that is not a number, the hook of
    that setting returns that value, and the first call of [App] raises a
    [TypeError], so nothing is mounted.  In general the value labels can be
    built exactly when those five settings are numbers. *)
Theorem non_number_entry_breaks_first_render
    (f : App.Field) (w : World) (text : string) (v : JSValue) (p : App.Prefs) :
  f ∈ Session.numericFields ->
  getItem_throws B (localStorage w) (App.key f) = None ->
  localStorage w !! App.key f = Some text ->
  negb (String.eqb text "") = true ->
  JSON_parse B text = Some v ->
  Session.is_number v = false ->
  fst (App.firstRender B (App.key f) (App.initialValue f) w) = Normal v
  /\ fst (Session.firstCall B toFixed w) = Session.ThrewTypeError
  /\ match Session.valueLabels toFixed p with
     | Some _ => true
     | None => false
     end
     = forallb (fun g => Session.is_number (App.get_field g p)) Session.numericFields.
Proof.
  intros Hf Hread Hget Hne Hparse Hnum.
  assert (Hl : Session.loaded B (localStorage w) (App.key f) (App.initialValue f) = v).
  { unfold Session.loaded. rewrite Hread, Hget, Hne, Hparse. reflexivity. }
  split; [| split; [| apply valueLabels_defined]].
  - destruct (firstRender_value B (App.key f) (App.initialValue f) w) as (w' & E & _).
    rewrite E. cbn [fst]. f_equal. exact Hl.
  - destruct (firstCall_spec w) as (w' & _ & E). rewrite E. cbn [fst].
    assert (Hv : App.get_field f (Session.loadedPrefs B (localStorage w)) = v)
      by (destruct f; exact Hl).
    pose proof (valueLabels_defined (Session.loadedPrefs B (localStorage w))) as Hdef.
    destruct (Session.valueLabels toFixed (Session.loadedPrefs B (localStorage w)));
      [| reflexivity].
    symmetry in Hdef. rewrite forallb_forall in Hdef.
    specialize (Hdef f). rewrite Hv, Hnum in Hdef.
    assert (false = true); [| discriminate].
    apply Hdef. apply list_elem_of_In, Hf.
Qed.

(** X15.  Each checkbox handler stores the negation of the truthiness of
    its setting, as a boolean, and never throws; two changes in a row leave
    the boolean of the original truthiness.  For auto-rotation, the rotation
    handed to the model after a change is that new boolean, gated by the
    selection. *)
Theorem checkbox_change_negates_setting (st : App.State) :
  let flip (f : App.Field) :=
    App.set_field f (VBool (negb (truthy (App.get_field f (App.prefs st))))) (App.prefs st) in
  (fst (Session.onChange_autoRotate B st) = Normal tt
   /\ App.prefs (snd (Session.onChange_autoRotate B st)) = flip App.FIsAutoRotating)
  /\ (fst (Session.onChange_propellerSpin B st) = Normal tt
      /\ App.prefs (snd (Session.onChange_propellerSpin B st)) = flip App.FIsPropellerSpinning)
  /\ (fst (Session.onChange_showPoints B st) = Normal tt
      /\ App.prefs (snd (Session.onChange_showPoints B st)) = flip App.FShowPoints)
  /\ App.isAutoRotating
       (App.prefs (snd (Session.onChange_autoRotate B
                          (snd (Session.onChange_autoRotate B st)))))
     = VBool (truthy (App.isAutoRotating (App.prefs st)))
  /\ App.rotationEnabled (snd (Session.onChange_autoRotate B st))
     = negb (truthy (App.isAutoRotating (App.prefs st))) && App.not_activePoint st.
Proof.
  intros flip.
  unfold Session.onChange_autoRotate, Session.onChange_propellerSpin,
    Session.onChange_showPoints, App.setIsAutoRotating, App.setIsPropellerSpinning,
    App.setShowPoints.
  rewrite !setter_result. cbn [fst snd App.prefs].
  repeat split.
  - destruct (App.prefs st) as [a ? ? ? ? ? ? ? ?]. simpl.
    rewrite negb_involutive. reflexivity.
  - rewrite rotationEnabled_gate. destruct (App.prefs st). reflexivity.
Qed.

End PanelValueFacts.


Lemma non_number_entry_breaks_first_render_witness :
  let B := Reference.browser in
  let w := {| localStorage := {[ "rotationSpeed" := "null" ]}; console := [] |} in
  let toFixed := fun (q : Q) (_ : nat) => Reference.JSON_stringify (VNum q) in
  App.FRotationSpeed ∈ Session.numericFields
  /\ getItem_throws B (localStorage w) (App.key App.FRotationSpeed) = None
  /\ localStorage w !! App.key App.FRotationSpeed = Some "null"
  /\ negb (String.eqb "null" "") = true
  /\ JSON_parse B "null" = Some VNull
  /\ Session.is_number VNull = false
  /\ fst (App.firstRender B "rotationSpeed" (VNum 0.3) w) = Normal VNull
  /\ fst (Session.firstCall B toFixed w) = Session.ThrewTypeError.
Proof.
  intros B w toFixed.
  assert (H1 : App.FRotationSpeed ∈ Session.numericFields) by apply list_elem_of_here.
  assert (H2 : getItem_throws B (localStorage w) (App.key App.FRotationSpeed) = None)
    by reflexivity.
  assert (H3 : localStorage w !! App.key App.FRotationSpeed = Some "null") by reflexivity.
  assert (H4 : negb (String.eqb "null" "") = true) by reflexivity.
  assert (H5 : JSON_parse B "null" = Some VNull) by reflexivity.
  assert (H6 : Session.is_number VNull = false) by reflexivity.
  repeat (split; [assumption |]).
  destruct (non_number_entry_breaks_first_render B toFixed App.FRotationSpeed w "null"
              VNull App.documentedDefaults H1 H2 H3 H4 H5 H6) as (Hhook & Hcall & _).
  split; [exact Hhook | exact Hcall].
Defined.

(** ** Fullscreen observer: calls, subscriptions, notifications *)

Section FullscreenEventFacts.
Import Fullscreen FullscreenEvents.

Lemma toggle_keeps_cell (doc : Document) (h : Hook) :
  isFullscreen (snd (toggleFullscreen doc h)) = isFullscreen h
  /\ (length (calls (snd (toggleFullscreen doc h))) <= length (calls h) + 1)%nat.
Proof.
  unfold toggleFullscreen, invoke, modify.
  destruct (negb _);
    repeat match goal with
           | |- context [ if ?b then _ else _ ] => destruct b
           end; simpl; rewrite ?length_app; simpl; split; (reflexivity || lia).
Qed.

(** X16.  The toggle makes at most one call to the platform.  Where the
    standard [requestFullscreen] and [exitFullscreen] exist it makes exactly
    one, the standard request or exit chosen by the probe, whatever
    vendor-prefixed methods exist beside them. *)
Theorem toggle_prefers_standard_methods (doc : Document) (h : Hook) :
  requestFullscreen doc = true ->
  exitFullscreen doc = true ->
  toggleFullscreen doc h
  = (Normal tt,
     {| isFullscreen := isFullscreen h;
        calls := (calls h ++ [if initialIsFullscreen doc
                              then call_exitFullscreen
                              else call_requestFullscreen])%list |})
  /\ forall (doc' : Document) (h' : Hook),
       (length (calls (snd (toggleFullscreen doc' h'))) <= length (calls h') + 1)%nat.
Proof.
  intros Hreq Hexit. split; [| intros doc' h'; apply toggle_keeps_cell].
  unfold toggleFullscreen, initialIsFullscreen, invoke, modify. rewrite Hreq, Hexit.
  destruct (bangbang _); reflexivity.
Qed.

Lemma toggle_prefers_standard_methods_witness :
  let doc := {| fullscreenElement := Elem 1;
                mozFullScreenElement := Undefined;
                webkitFullscreenElement := Elem 1;
                msFullscreenElement := Undefined;
                requestFullscreen := true; mozRequestFullScreen := false;
                webkitRequestFullscreen := true; msRequestFullscreen := false;
                exitFullscreen := true; mozCancelFullScreen := false;
                webkitExitFullscreen := true; msExitFullscreen := false |} in
  requestFullscreen doc = true
  /\ exitFullscreen doc = true
  /\ toggleFullscreen doc (useFullscreen_mount doc)
     = (Normal tt, {| isFullscreen := true; calls := [call_exitFullscreen] |}).
Proof.
  intros doc.
  assert (H1 : requestFullscreen doc = true) by reflexivity.
  assert (H2 : exitFullscreen doc = true) by reflexivity.
  split; [exact H1 |]. split; [exact H2 |].
  exact (proj1 (toggle_prefers_standard_methods doc (useFullscreen_mount doc) H1 H2)).
Defined.

(** After the effect, the closure is registered for the four change events
    and for no other type. *)
Lemma effect_registers_change_events (callback : nat) (ls : list Dom.Listener) (type : string) :
  (forall t, (t, callback) ∉ ls) ->
  bool_decide ((type, callback) ∈ effect callback ls) = bool_decide (type ∈ changeEvents).
Proof.
  intros Hfresh. apply bool_decide_ext. unfold effect, changeEvents.
  rewrite !elem_of_addEventListener, !elem_of_cons, elem_of_nil.
  split.
  - intros [H | [H | [H | [H | H]]]]; try (injection H as ->; tauto).
    exfalso. exact (Hfresh _ H).
  - intros [-> | [-> | [-> | [-> | []]]]]; tauto.
Qed.

(** X17.  For a closure registered nowhere before, the effect subscribes
    it to the four change events, adding four listeners, and the cleanup
    gives back the listener list the effect found. *)
Theorem fullscreen_subscriptions_balanced (callback : nat) (ls : list Dom.Listener) :
  (forall t, (t, callback) ∉ ls) ->
  cleanup callback (effect callback ls) = ls
  /\ forallb (fun t => bool_decide ((t, callback) ∈ effect callback ls)) changeEvents = true
  /\ length (effect callback ls) = (length ls + 4)%nat.
Proof.
  intros Hfresh. split; [| split].
  - unfold cleanup, effect.
    rewrite !(removeEventListener_add_other "fullscreenchange") by discriminate.
    rewrite (removeEventListener_added "fullscreenchange") by apply Hfresh.
    rewrite !(removeEventListener_add_other "webkitfullscreenchange") by discriminate.
    rewrite (removeEventListener_added "webkitfullscreenchange") by apply Hfresh.
    rewrite !(removeEventListener_add_other "mozfullscreenchange") by discriminate.
    rewrite (removeEventListener_added "mozfullscreenchange") by apply Hfresh.
    apply removeEventListener_added, Hfresh.
  - unfold changeEvents. simpl.
    rewrite !effect_registers_change_events by exact Hfresh. reflexivity.
  - assert (Hadd : forall t ls', (t, callback) ∉ ls' ->
              Dom.addEventListener t callback ls' = (ls' ++ [(t, callback)])%list).
    { intros t ls' H. unfold Dom.addEventListener.
      rewrite bool_decide_eq_false_2 by exact H. reflexivity. }
    unfold effect.
    rewrite (Hadd "fullscreenchange" ls) by apply Hfresh.
    rewrite (Hadd "webkitfullscreenchange")
      by (rewrite !elem_of_app, !list_elem_of_singleton;
          intros [H | H]; first [ exact (Hfresh _ H) | discriminate H ]).
    rewrite (Hadd "mozfullscreenchange")
      by (rewrite !elem_of_app, !list_elem_of_singleton;
          intros [[H | H] | H]; first [ exact (Hfresh _ H) | discriminate H ]).
    rewrite (Hadd "MSFullscreenChange")
      by (rewrite !elem_of_app, !list_elem_of_singleton;
          intros [[[H | H] | H] | H]; first [ exact (Hfresh _ H) | discriminate H ]).
    rewrite !length_app. simpl. lia.
Qed.

Lemma fullscreen_subscriptions_balanced_witness :
  (forall t : string, (t, 2%nat) ∉ [("mousedown", 1%nat)])
  /\ cleanup 2 (effect 2 [("mousedown", 1%nat)]) = [("mousedown", 1%nat)].
Proof.
  assert (H : forall t : string, (t, 2%nat) ∉ [("mousedown", 1%nat)]).
  { intros t Hin. apply list_elem_of_singleton in Hin. discriminate Hin. }
  split; [exact H |].
  exact (proj1 (fullscreen_subscriptions_balanced 2 [("mousedown", 1%nat)] H)).
Defined.

(** X18.  While the hook is subscribed, its [isFullscreen] cell is the
    probe of the document as it was at the last of the four change
    notifications (at mount when there was none yet): toggles and events of
    other types never change it. *)
Theorem cell_tracks_last_notification
    (callback : nat) (ls : list Dom.Listener) (evs : list Ev) (doc0 : Document) :
  (forall t, (t, callback) ∉ ls) ->
  isFullscreen (run callback (effect callback ls) evs (useFullscreen_mount doc0))
  = initialIsFullscreen (lastNotified evs doc0).
Proof.
  intros Hfresh. unfold run, lastNotified.
  assert (H0 : isFullscreen (useFullscreen_mount doc0) = initialIsFullscreen doc0)
    by reflexivity.
  revert H0. generalize (useFullscreen_mount doc0) as h. generalize doc0 as d.
  induction evs as [| ev evs IH]; intros d h Hh; [exact Hh |].
  simpl. apply IH. destruct ev as [doc | type doc]; simpl.
  - rewrite (proj1 (toggle_keeps_cell doc h)). exact Hh.
  - unfold dispatch. rewrite effect_registers_change_events by exact Hfresh.
    destruct (bool_decide (type ∈ changeEvents)); [reflexivity | exact Hh].
Qed.

Lemma cell_tracks_last_notification_witness :
  let windowed := {| fullscreenElement := Null;
                     mozFullScreenElement := Undefined;
                     webkitFullscreenElement := Undefined;
                     msFullscreenElement := Undefined;
                     requestFullscreen := true; mozRequestFullScreen := false;
                     webkitRequestFullscreen := false; msRequestFullscreen := false;
                     exitFullscreen := true; mozCancelFullScreen := false;
                     webkitExitFullscreen := false; msExitFullscreen := false |} in
  let full := {| fullscreenElement := Elem 1;
                 mozFullScreenElement := Undefined;
                 webkitFullscreenElement := Undefined;
                 msFullscreenElement := Undefined;
                 requestFullscreen := true; mozRequestFullScreen := false;
                 webkitRequestFullscreen := false; msRequestFullscreen := false;
                 exitFullscreen := true; mozCancelFullScreen := false;
                 webkitExitFullscreen := false; msExitFullscreen := false |} in
  (forall t : string, (t, 0%nat) ∉ ([] : list Dom.Listener))
  /\ isFullscreen (run 0 (effect 0 [])
                     [Toggle windowed; Notify "fullscreenchange" full; Toggle full]
                     (useFullscreen_mount windowed))
     = true.
Proof.
  intros windowed full.
  assert (H : forall t : string, (t, 0%nat) ∉ ([] : list Dom.Listener)).
  { intros t Hin. apply elem_of_nil in Hin. exact Hin. }
  split; [exact H |].
  exact (cell_tracks_last_notification 0 []
           [Toggle windowed; Notify "fullscreenchange" full; Toggle full] windowed H).
Defined.

End FullscreenEventFacts.

(** ** Animation over several frames *)

Section AnimationFacts.
Import Airplane Animation.
Local Open Scope Q_scope.

Lemma frames_cons (props : Props) (blades : list nat) (delta : Q) (deltas : list Q) (fr : Frame) :
  frames props blades (delta :: deltas) fr
  = frames props blades deltas (useFrame props blades delta fr).
Proof. reflexivity. Qed.

Lemma frames_snoc (props : Props) (blades : list nat) (deltas : list Q) (delta : Q) (fr : Frame) :
  frames props blades (deltas ++ [delta]) fr
  = useFrame props blades delta (frames props blades deltas fr).
Proof. unfold frames. rewrite foldl_snoc. reflexivity. Qed.

(** The scene a frame returns does not depend on the rotation gate, nor on
    the yaw of the model. *)
Lemma frames_scene_gate (props props' : Props) (blades : list nat) (deltas : list Q)
    (fr fr' : Frame) :
  isPropellerSpinning props = isPropellerSpinning props' ->
  propellerSpeed props = propellerSpeed props' ->
  scene fr = scene fr' ->
  scene (frames props blades deltas fr) = scene (frames props' blades deltas fr').
Proof.
  intros Hs Hp. revert fr fr'. induction deltas as [| d ds IH]; intros fr fr' Hsc; [exact Hsc |].
  rewrite !frames_cons. apply IH. unfold useFrame. simpl. rewrite Hs, Hp, Hsc. reflexivity.
Qed.

Lemma frames_yaw_off (props : Props) (blades : list nat) (deltas : list Q) (fr : Frame) :
  isAutoRotating props = false ->
  modelRef (frames props blades deltas fr) = modelRef fr.
Proof.
  intros Hoff. revert fr. induction deltas as [| d ds IH]; intros fr; [reflexivity |].
  rewrite frames_cons, IH. unfold useFrame. simpl. rewrite Hoff.
  destruct (modelRef fr); reflexivity.
Qed.

(** With rotation on, a frame adds its own [delta * rotationSpeed] to the
    yaw reached so far. *)
Lemma frames_yaw_step (props : Props) (blades : list nat) (deltas : list Q) (delta : Q)
    (fr : Frame) :
  isAutoRotating props = true ->
  modelRef (frames props blades (deltas ++ [delta]) fr)
  = (fun rotation_y => rotation_y + delta * rotationSpeed props)
      <$> modelRef (frames props blades deltas fr).
Proof.
  intros Hon. rewrite frames_snoc. unfold useFrame. simpl. rewrite Hon.
  destruct (modelRef (frames props blades deltas fr)); reflexivity.
Qed.

Lemma Qle_add_nonneg (a b : Q) : 0 <= b -> a <= a + b.
Proof.
  intros Hb. setoid_replace a with (a + 0) using relation Qeq at 1 by ring.
  apply Qplus_le_compat; [apply Qle_refl | exact Hb].
Qed.

Lemma frames_yaw_nondecreasing (props : Props) (blades : list nat) (deltas : list Q)
    (y : Q) (objects : Scene) :
  isAutoRotating props = true ->
  0 <= rotationSpeed props ->
  Forall (Qle 0) deltas ->
  y <= yaw (frames props blades deltas {| modelRef := Some y; scene := objects |}).
Proof.
  intros Hon Hspeed Hpos. revert y objects.
  induction Hpos as [| d ds Hd Hds IH]; intros y objects; [apply Qle_refl |].
  rewrite frames_cons. unfold useFrame at 1. simpl modelRef. rewrite Hon.
  eapply Qle_trans; [| apply IH].
  apply Qle_add_nonneg, Qmult_le_0_compat; assumption.
Qed.

(** X19.  Over any run of frames: with rotation off the yaw of the model is
    left as it is, and an unmounted group stays unmounted; with rotation on
    each frame adds its own [delta * rotationSpeed] to the yaw reached so
    far, so that for a non-negative speed and non-negative elapsed times the
    yaw never goes back below where it started. *)
Theorem yaw_over_frames
    (gate spinning : bool) (rotationSpeed propellerSpeed y delta : Q)
    (blades : list nat) (deltas : list Q) (objects : Scene) :
  let props (on : bool) := {| isAutoRotating := on;
                              rotationSpeed := rotationSpeed;
                              isPropellerSpinning := spinning;
                              propellerSpeed := propellerSpeed |} in
  let fr := {| modelRef := Some y; scene := objects |} in
  modelRef (frames (props false) blades deltas fr) = Some y
  /\ modelRef (frames (props gate) blades deltas {| modelRef := None; scene := objects |})
     = None
  /\ modelRef (frames (props true) blades (deltas ++ [delta]) fr)
     = (fun rotation_y => rotation_y + delta * rotationSpeed)
         <$> modelRef (frames (props true) blades deltas fr)
  /\ is_Some (modelRef (frames (props true) blades deltas fr))
  /\ (0 <= rotationSpeed -> Forall (Qle 0) deltas ->
      y <= yaw (frames (props true) blades deltas fr)).
Proof.
  intros props fr. split; [| split; [| split; [| split]]].
  - apply (frames_yaw_off (props false)). reflexivity.
  - generalize objects. induction deltas as [| d ds IH]; intros objects'; [reflexivity |].
    rewrite frames_cons. unfold useFrame at 1. simpl modelRef. apply IH.
  - apply (frames_yaw_step (props true)). reflexivity.
  - unfold fr. generalize y objects.
    induction deltas as [| d ds IH]; intros y' objects'; [simpl; eauto |].
    rewrite frames_cons. unfold useFrame at 1. simpl modelRef. apply IH.
  - intros Hspeed Hpos. apply (frames_yaw_nondecreasing (props true)); auto.
Qed.

Lemma yaw_over_frames_witness :
  let props := {| isAutoRotating := true; rotationSpeed := 0.3;
                  isPropellerSpinning := true; propellerSpeed := 15 |} in
  0 <= 0.3
  /\ Forall (Qle 0) [0.1; 0.1; 0.1]
  /\ 3 <= yaw (frames props [] [0.1; 0.1; 0.1] {| modelRef := Some 3; scene := [] |}).
Proof.
  intros props.
  assert (Hs : 0 <= 0.3) by (unfold Qle; simpl; lia).
  assert (Hd : Forall (Qle 0) [0.1; 0.1; 0.1])
    by (repeat constructor; unfold Qle; simpl; lia).
  split; [exact Hs |]. split; [exact Hd |].
  destruct (yaw_over_frames true true 0.3 15 3 0 [] [0.1; 0.1; 0.1] [])
    as (_ & _ & _ & _ & Hmono).
  exact (Hmono Hs Hd).
Defined.

(** One frame with spin on: the lookup at every place. *)
Lemma useFrame_scene_lookup (props : Props) (blades : list nat) (delta : Q) (fr : Frame)
    (i : nat) :
  isPropellerSpinning props = true ->
  NoDup blades ->
  scene (useFrame props blades delta fr) !! i
  = if bool_decide (i ∈ blades)
    then spin delta (propellerSpeed props) <$> scene fr !! i
    else scene fr !! i.
Proof.
  intros Hs Hnd. unfold useFrame. simpl. rewrite Hs.
  destruct blades as [| b bs]; [reflexivity |].
  simpl Nat.ltb. cbv iota. apply (lookup_alter_each _ (b :: bs)), Hnd.
Qed.

(** A node that is not a blade is never written. *)
Lemma frames_other_nodes (props : Props) (blades : list nat) (deltas : list Q) (fr : Frame)
    (i : nat) :
  isPropellerSpinning props = true ->
  NoDup blades ->
  i ∉ blades ->
  scene (frames props blades deltas fr) !! i = scene fr !! i.
Proof.
  intros Hs Hnd Hi. revert fr. induction deltas as [| d ds IH]; intros fr; [reflexivity |].
  rewrite frames_cons, IH. rewrite (useFrame_scene_lookup props blades d fr i Hs Hnd).
  rewrite bool_decide_eq_false_2 by exact Hi. reflexivity.
Qed.

Lemma frames_lookup_is_Some (props : Props) (blades : list nat) (deltas : list Q)
    (fr : Frame) (i : nat) :
  isPropellerSpinning props = true ->
  NoDup blades ->
  is_Some (scene fr !! i) ->
  is_Some (scene (frames props blades deltas fr) !! i).
Proof.
  intros Hs Hnd. revert fr. induction deltas as [| d ds IH]; intros fr Hi; [exact Hi |].
  rewrite frames_cons. apply IH.
  rewrite (useFrame_scene_lookup props blades d fr i Hs Hnd).
  destruct Hi as [node Hnode]. rewrite Hnode.
  destruct (bool_decide (i ∈ blades)); simpl; eauto.
Qed.

Lemma frames_roll_nondecreasing (props : Props) (blades : list nat) (deltas : list Q)
    (fr : Frame) (i : nat) :
  isPropellerSpinning props = true ->
  NoDup blades ->
  0 <= propellerSpeed props ->
  Forall (Qle 0) deltas ->
  roll (scene fr) i <= roll (scene (frames props blades deltas fr)) i.
Proof.
  intros Hs Hnd Hspeed Hpos. revert fr.
  induction Hpos as [| d ds Hd Hds IH]; intros fr; [apply Qle_refl |].
  rewrite frames_cons. eapply Qle_trans; [| apply IH].
  unfold roll. rewrite (useFrame_scene_lookup props blades d fr i Hs Hnd).
  destruct (bool_decide (i ∈ blades)); [| apply Qle_refl].
  destruct (scene fr !! i) as [node |]; [| apply Qle_refl].
  cbn [fmap option_fmap option_map from_option spin rotation_z].
  apply Qle_add_nonneg, Qmult_le_0_compat; assumption.
Qed.

(** X20.  With propeller spin on and the blades as the name lookup found
    them in the first scene, over any run of frames: a node that is the
    first to bear [Prop_Blade] or [Prop_] is among the blades, and each frame
    adds its own [delta * propellerSpeed] to the roll that blade has reached;
    every other node stays as it was in the first scene, whether the rotation
    of the model is on or off; and for a non-negative speed and non-negative
    elapsed times no roll goes back below where it started. *)
Theorem blade_roll_over_frames
    (gate : bool) (rotationSpeed propellerSpeed delta : Q) (deltas : list Q)
    (fr : Frame) (i : nat) :
  let props := {| isAutoRotating := gate;
                  rotationSpeed := rotationSpeed;
                  isPropellerSpinning := true;
                  propellerSpeed := propellerSpeed |} in
  let blades := findBlades (scene fr) in
  scene (frames props blades (deltas ++ [delta]) fr) !! i
  = (if bool_decide (i ∈ blades)
     then spin delta propellerSpeed <$> scene (frames props blades deltas fr) !! i
     else scene fr !! i)
  /\ (forall node : Object3D,
        scene fr !! i = Some node ->
        name node ∈ bladeNames ->
        (forall (j : nat) (node' : Object3D),
           (j < i)%nat -> scene fr !! j = Some node' -> name node' ≠ name node) ->
        i ∈ blades
        /\ is_Some (scene (frames props blades deltas fr) !! i))
  /\ (0 <= propellerSpeed -> Forall (Qle 0) deltas ->
      roll (scene fr) i <= roll (scene (frames props blades deltas fr)) i).
Proof.
  intros props blades.
  destruct (findBlades_distinct (scene fr)) as [Hnd Hin]. fold blades in Hnd, Hin.
  split; [| split].
  - rewrite frames_snoc.
    rewrite (useFrame_scene_lookup props blades delta _ i eq_refl Hnd).
    destruct (decide (i ∈ blades)) as [Hi | Hi].
    + rewrite !bool_decide_eq_true_2 by exact Hi. reflexivity.
    + rewrite !bool_decide_eq_false_2 by exact Hi.
      apply (frames_other_nodes props); [reflexivity | exact Hnd | exact Hi].
  - intros node Hnode Hname Hfirst.
    assert (Hi : i ∈ blades).
    { apply findBlades_first_named. exists node. repeat split; assumption. }
    split; [exact Hi |].
    apply (frames_lookup_is_Some props); [reflexivity | exact Hnd | eauto].
  - intros Hspeed Hpos.
    apply (frames_roll_nondecreasing props); [reflexivity | exact Hnd | exact Hspeed | exact Hpos].
Qed.

Lemma blade_roll_over_frames_witness :
  let model := [ {| name := "Fuselage"; rotation_z := 0 |};
                 {| name := "Prop_Blade"; rotation_z := 1 |} ] in
  model !! 1%nat = Some {| name := "Prop_Blade"; rotation_z := 1 |}
  /\ "Prop_Blade" ∈ bladeNames
  /\ (forall (j : nat) (node' : Object3D),
        (j < 1)%nat -> model !! j = Some node' -> name node' ≠ "Prop_Blade")
  /\ 0 <= 7
  /\ Forall (Qle 0) [0.02; 0.02; 0.02]
  /\ 1%nat ∈ findBlades model
  /\ roll model 1
     <= roll (scene (frames {| isAutoRotating := false; rotationSpeed := 0.3;
                               isPropellerSpinning := true; propellerSpeed := 7 |}
                       (findBlades model) [0.02; 0.02; 0.02] (mountFrame model))) 1.
Proof.
  intros model.
  assert (H1 : model !! 1%nat = Some {| name := "Prop_Blade"; rotation_z := 1 |})
    by reflexivity.
  assert (H2 : "Prop_Blade" ∈ bladeNames)
    by (apply (bool_decide_unpack _); vm_compute; exact I).
  assert (H3 : forall (j : nat) (node' : Object3D),
             (j < 1)%nat -> model !! j = Some node' -> name node' ≠ "Prop_Blade").
  { intros [| j] node' Hlt Hj; [| lia]. simpl in Hj. injection Hj as <-.
    simpl. discriminate. }
  assert (H4 : 0 <= 7) by (unfold Qle; simpl; lia).
  assert (H5 : Forall (Qle 0) [0.02; 0.02; 0.02])
    by (repeat constructor; unfold Qle; simpl; lia).
  split; [exact H1 |]. split; [exact H2 |]. split; [exact H3 |].
  split; [exact H4 |]. split; [exact H5 |].
  destruct (blade_roll_over_frames false 0.3 7 0 [0.02; 0.02; 0.02] (mountFrame model) 1%nat)
    as (_ & Hfound & Hmono).
  split; [exact (proj1 (Hfound _ H1 H2 H3)) | exact (Hmono H4 H5)].
Defined.

(** X21.  While a hotspot is selected the frames leave the yaw of the model
    as it is, whatever the auto-rotate setting, and spin the propellers
    exactly as they would with nothing selected.  Once the detail view is
    closed, with auto-rotation set to [true], each frame again adds its own
    [delta * rotationSpeed] to the yaw reached so far. *)
Theorem open_detail_view_freezes_yaw_only
    (st : App.State) (point : PointData) (rotationSpeed propellerSpeed y delta : Q)
    (spinning : bool) (blades : list nat) (deltas : list Q) (objects : Scene) :
  let props (s : App.State) := {| isAutoRotating := App.rotationEnabled s;
                                  rotationSpeed := rotationSpeed;
                                  isPropellerSpinning := spinning;
                                  propellerSpeed := propellerSpeed |} in
  let fr := {| modelRef := Some y; scene := objects |} in
  let selected := App.handlePointClick point st in
  let closed :=
    App.handleCloseInfoBox
      {| App.prefs := App.set_field App.FIsAutoRotating (VBool true) (App.prefs selected);
         App.activePoint := App.activePoint selected;
         App.world := App.world selected |} in
  modelRef (frames (props selected) blades deltas fr) = Some y
  /\ scene (frames (props selected) blades deltas fr)
     = scene (frames (props st) blades deltas fr)
  /\ modelRef (useFrame (props closed) blades delta fr) = Some (y + delta * rotationSpeed)
  /\ modelRef (frames (props closed) blades (deltas ++ [delta]) fr)
     = (fun rotation_y => rotation_y + delta * rotationSpeed)
         <$> modelRef (frames (props closed) blades deltas fr).
Proof.
  intros props fr selected closed.
  assert (Hsel : App.rotationEnabled selected = false).
  { unfold selected. rewrite rotationEnabled_gate. apply andb_false_r. }
  assert (Hclosed : App.rotationEnabled closed = true).
  { unfold closed. rewrite rotationEnabled_gate. simpl.
    destruct (App.prefs st); reflexivity. }
  split; [| split; [| split]].
  - apply (frames_yaw_off (props selected)). exact Hsel.
  - apply frames_scene_gate; reflexivity.
  - unfold useFrame. simpl. rewrite Hclosed. reflexivity.
  - apply (frames_yaw_step (props closed)). exact Hclosed.
Qed.

End AnimationFacts.

Section SceneFacts.
Import Airplane Animation.

Lemma useFrame_names (props : Props) (blades : list nat) (delta : Q) (fr : Frame) :
  map name (scene (useFrame props blades delta fr)) = map name (scene fr).
Proof.
  unfold useFrame. simpl. destruct (isPropellerSpinning props); [| reflexivity].
  destruct (0 <? length blades)%nat; [| reflexivity].
  apply alter_each_names. reflexivity.
Qed.

Lemma frames_names (props : Props) (blades : list nat) (deltas : list Q) (fr : Frame) :
  map name (scene (frames props blades deltas fr)) = map name (scene fr).
Proof.
  revert fr. induction deltas as [| d ds IH]; intros fr; [reflexivity |].
  change (frames props blades (d :: ds) fr)
    with (frames props blades ds (useFrame props blades d fr)).
  rewrite IH. apply useFrame_names.
Qed.

Lemma frames_scene_spin_off (props : Props) (blades : list nat) (deltas : list Q) (fr : Frame) :
  isPropellerSpinning props = false ->
  scene (frames props blades deltas fr) = scene fr.
Proof.
  intros Hoff. revert fr. induction deltas as [| d ds IH]; intros fr; [reflexivity |].
  change (frames props blades (d :: ds) fr)
    with (frames props blades ds (useFrame props blades d fr)).
  rewrite IH. unfold useFrame. simpl. rewrite Hoff. reflexivity.
Qed.

(** X22.  Frames never add, remove or rename a node, for any properties and
    any list of blade places (repeated or out of range ones included), so
    the name lookup finds the same blades after any run of frames; with spin
    off the scene is not changed at all. *)
Theorem frames_keep_scene_shape
    (props : Props) (gate : bool) (rotationSpeed propellerSpeed : Q)
    (blades : list nat) (deltas : list Q) (fr : Frame) :
  map name (scene (frames props blades deltas fr)) = map name (scene fr)
  /\ length (scene (frames props blades deltas fr)) = length (scene fr)
  /\ findBlades (scene (frames props blades deltas fr)) = findBlades (scene fr)
  /\ scene (frames {| isAutoRotating := gate;
                      rotationSpeed := rotationSpeed;
                      isPropellerSpinning := false;
                      propellerSpeed := propellerSpeed |} blades deltas fr)
     = scene fr.
Proof.
  pose proof (frames_names props blades deltas fr) as Hnames.
  split; [exact Hnames |]. split; [| split].
  - rewrite <- (length_map name), Hnames. apply length_map.
  - apply findBlades_names, Hnames.
  - apply frames_scene_spin_off. reflexivity.
Qed.

(** X23.  A blade found by the lookup is the first node, in visiting order,
    bearing one of the two names: a later node with the same name is never
    animated.  At most two blades are found. *)
Theorem found_blade_is_first_of_its_name (objects : Scene) (i : nat) :
  i ∈ findBlades objects ->
  (exists node,
     objects !! i = Some node
     /\ name node ∈ bladeNames
     /\ forall (j : nat) (node' : Object3D),
          (j < i)%nat -> objects !! j = Some node' -> name node' ≠ name node)
  /\ (length (findBlades objects) <= 2)%nat.
Proof.
  unfold findBlades, bladeNames. simpl.
  destruct (getObjectByName objects "Prop_Blade") as [a |] eqn:Ea;
    destruct (getObjectByName objects "Prop_") as [b |] eqn:Eb; simpl;
    rewrite ?elem_of_cons, ?elem_of_nil; intros Hin; (split; [| lia]).
  - destruct Hin as [-> | [-> | []]].
    + destruct (getObjectByName_found _ _ _ Ea) as (node & Hnode & Hname).
      exists node. rewrite Hname. split; [exact Hnode |]. split; [set_solver |].
      apply (getObjectByName_first _ _ _ Ea).
    + destruct (getObjectByName_found _ _ _ Eb) as (node & Hnode & Hname).
      exists node. rewrite Hname. split; [exact Hnode |]. split; [set_solver |].
      apply (getObjectByName_first _ _ _ Eb).
  - destruct Hin as [-> | []].
    destruct (getObjectByName_found _ _ _ Ea) as (node & Hnode & Hname).
    exists node. rewrite Hname. split; [exact Hnode |]. split; [set_solver |].
    apply (getObjectByName_first _ _ _ Ea).
  - destruct Hin as [-> | []].
    destruct (getObjectByName_found _ _ _ Eb) as (node & Hnode & Hname).
    exists node. rewrite Hname. split; [exact Hnode |]. split; [set_solver |].
    apply (getObjectByName_first _ _ _ Eb).
  - destruct Hin.
Qed.

Lemma found_blade_is_first_of_its_name_witness :
  let model := [ {| name := "Fuselage"; rotation_z := 0 |};
                 {| name := "Prop_Blade"; rotation_z := 0 |};
                 {| name := "Prop_Blade"; rotation_z := 0 |} ] in
  1%nat ∈ findBlades model
  /\ findBlades model = [1%nat]
  /\ (length (findBlades model) <= 2)%nat.
Proof.
  intros model.
  assert (H : 1%nat ∈ findBlades model) by apply list_elem_of_here.
  split; [exact H |]. split; [reflexivity |].
  exact (proj2 (found_blade_is_first_of_its_name model 1%nat H)).
Defined.

End SceneFacts.
